(** * The hero recommendation widget of [static/app.js]

    A shallow embedding of the script's four functions ([postJSON],
    [escapeHTML], [renderToolCard], and the closure [run] with its debounced
    input listener inside [initHeroRecommendations]) together with the part
    of the host they talk to: JavaScript strings, parsed JSON values, timers,
    abortable fetches and the two DOM nodes the script writes.

    The page is modelled once the widget is active, that is with the four
    elements [hero-search], [hero-q], [hero-recs] and [hero-recs-grid]
    present; without one of them [initHeroRecommendations] returns at once
    and installs nothing. *)

From Stdlib Require Import NArith List String Ascii Bool Lia.
From stdpp Require Import gmap list.

Set Warnings "-register-all".
#[local] Open Scope N_scope.

(** ** JavaScript strings

    A string is its sequence of UTF-16 code units, so [length] is the
    script's [.length]. *)

Abbreviation jsstring := (list N).

(** Text that is ASCII in the source. *)
Definition lit (s : string) : jsstring :=
  map N_of_ascii (list_ascii_of_string s).

(** Markup of the source's template literals. It is written here with an
    apostrophe wherever the source has a double quote (the templates contain
    no apostrophe of their own); [tpl] puts the double quote, code unit 34,
    back. *)
Definition tpl (s : string) : jsstring :=
  map (fun c => if c =? 39 then 34 else c) (lit s).

Arguments lit s%_string.
Arguments tpl s%_string.

Definition unit_eqb (a b : N) : bool := a =? b.

Fixpoint jsstring_eqb (a b : jsstring) : bool :=
  match a, b with
  | [], [] => true
  | x :: a', y :: b' => unit_eqb x y && jsstring_eqb a' b'
  | _, _ => false
  end.

(** [s.replaceAll(pattern, replacement)] for a pattern of one code unit,
    which is all the script uses; none of its replacements holds a [$]. *)
Definition replaceAll (pattern : N) (replacement : jsstring) (s : jsstring)
  : jsstring :=
  flat_map (fun c => if c =? pattern then replacement else [c]) s.

(** The code units of [&], [<], [>], the double quote and the apostrophe. *)
Definition u_amp : N := 38.
Definition u_lt : N := 60.
Definition u_gt : N := 62.
Definition u_quot : N := 34.
Definition u_apos : N := 39.

(** [WhiteSpace] and [LineTerminator] of ECMAScript, the code units
    [String.prototype.trim] strips. *)
Definition is_trimmed_unit (c : N) : bool :=
  (9 <=? c) && (c <=? 13)
  || (c =? 32) || (c =? 160) || (c =? 5760)
  || (8192 <=? c) && (c <=? 8202)
  || (c =? 8232) || (c =? 8233) || (c =? 8239) || (c =? 8287)
  || (c =? 12288) || (c =? 65279).

Fixpoint trimStart (s : jsstring) : jsstring :=
  match s with
  | c :: s' => if is_trimmed_unit c then trimStart s' else s
  | [] => []
  end.

Definition trim (s : jsstring) : jsstring :=
  rev (trimStart (rev (trimStart s))).

(** ** Exceptions *)

Inductive exn :=
| TypeError      (* reading a property of null, calling what is no function *)
| URIError       (* encodeURIComponent on an unpaired surrogate *)
| SyntaxError    (* res.json() on a body that is no JSON *)
| AbortError     (* the fetch's signal was aborted *)
| NetworkError.  (* the fetch failed in transport *)

Inductive result (A : Type) :=
| Ok (a : A)
| Throw (e : exn).

Arguments Ok {A} a.
Arguments Throw {A} e.

Definition bind {A B} (r : result A) (k : A -> result B) : result B :=
  match r with
  | Ok a => k a
  | Throw e => Throw e
  end.

Notation "'let*' x ':=' r 'in' k" := (bind r (fun x => k))
  (at level 10, x name, r at level 100, k at level 200).

Fixpoint mapM {A B} (f : A -> result B) (l : list A) : result (list B) :=
  match l with
  | [] => Ok []
  | a :: l' =>
      let* b := f a in
      let* bs := mapM f l' in
      Ok (b :: bs)
  end.

(** The results of a list of computations, up to the first that throws. *)
Fixpoint sequence {A} (l : list (result A)) : result (list A) :=
  match l with
  | [] => Ok []
  | r :: l' =>
      let* a := r in
      let* rest := sequence l' in
      Ok (a :: rest)
  end.

(** ** [encodeURIComponent] *)

Definition hex_digit (d : N) : N :=
  if d <? 10 then 48 + d else 55 + d.

Definition percent (octet : N) : jsstring :=
  [37; hex_digit (N.shiftr octet 4); hex_digit (N.land octet 15)].

Definition utf8 (cp : N) : list N :=
  if cp <? 128 then [cp]
  else if cp <? 2048 then
    [N.lor 192 (N.shiftr cp 6); N.lor 128 (N.land cp 63)]
  else if cp <? 65536 then
    [N.lor 224 (N.shiftr cp 12);
     N.lor 128 (N.land (N.shiftr cp 6) 63);
     N.lor 128 (N.land cp 63)]
  else
    [N.lor 240 (N.shiftr cp 18);
     N.lor 128 (N.land (N.shiftr cp 12) 63);
     N.lor 128 (N.land (N.shiftr cp 6) 63);
     N.lor 128 (N.land cp 63)].

Definition is_alnum (c : N) : bool :=
  (48 <=? c) && (c <=? 57) || (65 <=? c) && (c <=? 90)
  || (97 <=? c) && (c <=? 122).

(** The characters [encodeURIComponent] leaves alone: letters, digits and
    [- _ . ! ~ * ' ( )]. *)
Definition is_unreserved (c : N) : bool :=
  is_alnum c
  || (c =? 45) || (c =? 95) || (c =? 46) || (c =? 33) || (c =? 126)
  || (c =? 42) || (c =? 39) || (c =? 40) || (c =? 41).

Definition is_high_surrogate (c : N) : bool := (55296 <=? c) && (c <=? 56319).
Definition is_low_surrogate (c : N) : bool := (56320 <=? c) && (c <=? 57343).

Definition percent_all (cp : N) : jsstring := flat_map percent (utf8 cp).

Fixpoint encodeURIComponent (s : jsstring) : result jsstring :=
  match s with
  | [] => Ok []
  | c :: s' =>
      if is_unreserved c then
        let* r := encodeURIComponent s' in Ok (c :: r)
      else if is_low_surrogate c then Throw URIError
      else if is_high_surrogate c then
        match s' with
        | d :: s'' =>
            if is_low_surrogate d then
              let cp := (c - 55296) * 1024 + (d - 56320) + 65536 in
              let* r := encodeURIComponent s'' in Ok (percent_all cp ++ r)
            else Throw URIError
        | [] => Throw URIError
        end
      else
        let* r := encodeURIComponent s' in Ok (percent_all c ++ r)
  end.

(** ** Values

    What [res.json()] can hand to the script, and [undefined] for a property
    that is not there. A number is carried as the text [Number::toString]
    gives for it: the script only ever prints a number or tests it for
    truth, and both are read off that text. An object is the finite map of
    its own properties. *)

Inductive value :=
| Undefined
| Null
| Bool (b : bool)
| Num (text : jsstring)
| Str (s : jsstring)
| Arr (l : list value)
| Obj (m : gmap jsstring value).

(** [ToBoolean]: what [||] and [!] look at. *)
Definition truthy (v : value) : bool :=
  match v with
  | Undefined | Null => false
  | Bool b => b
  | Num text =>
      negb (jsstring_eqb text (lit "0") || jsstring_eqb text (lit "NaN"))
  | Str s => negb (jsstring_eqb s [])
  | Arr _ | Obj _ => true
  end.

(** [a || b] *)
Definition or_else (a b : value) : value := if truthy a then a else b.

Fixpoint join (sep : jsstring) (l : list jsstring) : jsstring :=
  match l with
  | [] => []
  | [s] => s
  | s :: l' => s ++ sep ++ join sep l'
  end.

(** [String(v)], the conversion that a template literal and
    [encodeURIComponent] also apply to their operand. An array prints as
    [Array.prototype.join] does, with nothing for a [null] or [undefined]
    element, and it throws where an element does. A parsed object prints
    through [Object.prototype.toString], unless it has a property
    [toString] of its own: a parsed value is no function, and [valueOf]
    gives no primitive either, so the conversion ends in a TypeError. *)
Fixpoint String_ (v : value) : result jsstring :=
  match v with
  | Undefined => Ok (lit "undefined")
  | Null => Ok (lit "null")
  | Bool true => Ok (lit "true")
  | Bool false => Ok (lit "false")
  | Num text => Ok text
  | Str s => Ok s
  | Arr l =>
      let* parts :=
        sequence (map (fun e => match e with
                                | Undefined | Null => Ok []
                                | _ => String_ e
                                end) l) in
      Ok (join (lit ",") parts)
  | Obj m =>
      match m !! lit "toString" with
      | Some _ => Throw TypeError
      | None => Ok (lit "[object Object]")
      end
  end.

(** [v.key] for the data properties the script reads ([tools], [slug],
    [url], [icon], [name], [pricing_type], [description], [category],
    [use_cases]): none of them lives on a prototype, so only an object's own
    property answers, and only [null] and [undefined] throw. *)
Definition get (v : value) (key : jsstring) : result value :=
  match v with
  | Undefined | Null => Throw TypeError
  | Obj m => Ok (default Undefined (m !! key))
  | _ => Ok Undefined
  end.

(** [!v.length] *)
Definition no_length (v : value) : result bool :=
  match v with
  | Undefined | Null => Throw TypeError
  | Arr l => Ok (Nat.eqb (length l) 0)
  | Str s => Ok (Nat.eqb (length s) 0)
  | Obj m => Ok (negb (truthy (default Undefined (m !! lit "length"))))
  | Bool _ | Num _ => Ok true
  end.

(** [v.slice(0, n).map(f)]: an array gives its first [n] elements to [f] in
    order. A string has [slice] but its result has no [map]; a parsed object
    holds no function; a number or boolean has no [slice]: all of these end
    in a TypeError. *)
Definition slice_map {A} (v : value) (n : nat) (f : value -> result A)
  : result (list A) :=
  match v with
  | Arr l => mapM f (firstn n l)
  | _ => Throw TypeError
  end.

(** ** [escapeHTML] *)

Definition escapeHTML (str : value) : result jsstring :=
  let* s := String_ str in
  Ok (replaceAll u_apos (lit "&#39;")
        (replaceAll u_quot (lit "&quot;")
           (replaceAll u_gt (lit "&gt;")
              (replaceAll u_lt (lit "&lt;")
                 (replaceAll u_amp (lit "&amp;") s))))).

(** ** [renderToolCard]

    The template literal, cut at its nine substitutions. *)

Definition card_open : jsstring := tpl "
    <div class='glass-card group flex h-full flex-col overflow-hidden'>
      <div class='flex items-start gap-4 p-5'>
        <div class='grid h-11 w-11 shrink-0 place-items-center rounded-2xl bg-white/10 ring-1 ring-white/15'>
          <span class='text-sm font-semibold text-white/90'>".

Definition card_icon_to_href : jsstring := tpl "</span>
        </div>
        <div class='min-w-0 flex-1'>
          <div class='flex items-center justify-between gap-3'>
            <a href='".

Definition card_href_to_name : jsstring := tpl "' class='truncate text-base font-semibold tracking-tight text-white hover:text-white/90'>".

Definition card_name_to_pricing : jsstring := tpl "</a>
            <span class='badge'>".

Definition card_pricing_to_description : jsstring := tpl "</span>
          </div>
          <p class='mt-1 line-clamp-2 text-sm text-white/70'>".

Definition card_description_to_category : jsstring := tpl "</p>
          <div class='mt-3 flex flex-wrap gap-2'>
            <span class='pill'>".

Definition card_category_to_pills : jsstring := tpl "</span>
            ".

Definition card_pills_to_visit : jsstring := tpl "
          </div>
        </div>
      </div>
      <div class='mt-auto border-t border-white/10 p-5'>
        <div class='flex items-center justify-between gap-3'>
          <a href='".

Definition card_visit_to_details : jsstring := tpl "' target='_blank' rel='noopener noreferrer' class='inline-flex items-center justify-center rounded-xl bg-white px-4 py-2 text-sm font-semibold text-slate-900 hover:bg-white/90'>Visit Tool</a>
          <a href='".

Definition card_close : jsstring := tpl "' class='text-sm font-semibold text-white/70 hover:text-white'>Details</a>
        </div>
      </div>
    </div>
  ".

Definition pill_open : jsstring := tpl "<span class='pill pill-muted'>".
Definition pill_close : jsstring := tpl "</span>".

(** The arrow function mapped over the use cases. *)
Definition pill (t : value) : result jsstring :=
  let* text := escapeHTML t in
  Ok (pill_open ++ text ++ pill_close).

(** The template with its substitutions filled by strings, in the order
    they occur. *)
Definition card (icon href name pricing description category pills visit
  : jsstring) : jsstring :=
  card_open ++ icon ++ card_icon_to_href ++ href ++ card_href_to_name
  ++ name ++ card_name_to_pricing ++ pricing ++ card_pricing_to_description
  ++ description ++ card_description_to_category ++ category
  ++ card_category_to_pills ++ pills ++ card_pills_to_visit ++ visit
  ++ card_visit_to_details ++ href ++ card_close.

(** The slug is read, printed and encoded first and the [url] is read; then
    the template is filled from left to right, each substitution being
    computed and printed in its turn (the [url] is printed where it stands,
    after the pills). *)
Definition renderToolCard (tool : value) : result jsstring :=
  let* slug := get tool (lit "slug") in
  let* slug_text := String_ slug in
  let* encoded := encodeURIComponent slug_text in
  let href := lit "/tools/" ++ encoded in
  let* visit := get tool (lit "url") in
  let* icon := get tool (lit "icon") in
  let* icon_html := escapeHTML (or_else icon (Str (lit "AI"))) in
  let* name := get tool (lit "name") in
  let* name_html := escapeHTML name in
  let* pricing_type := get tool (lit "pricing_type") in
  let* pricing_html := escapeHTML (or_else pricing_type (Str [])) in
  let* description := get tool (lit "description") in
  let* description_html := escapeHTML (or_else description (Str [])) in
  let* category := get tool (lit "category") in
  let* category_html := escapeHTML (or_else category (Str [])) in
  let* use_cases := get tool (lit "use_cases") in
  let* pills := slice_map (or_else use_cases (Arr [])) 3 pill in
  let* visit_text := String_ visit in
  Ok (card icon_html href name_html pricing_html description_html
        category_html (join [] pills) visit_text).

(** ** The page and its host

    [initHeroRecommendations] keeps two variables, [lastController] and
    [debounce], and writes two DOM nodes: the panel [recs] (its [hidden]
    class) and the [grid] (its [innerHTML]). The host keeps the clock, the
    pending timers and the pending fetches. Controllers and timers are named
    by consecutive numbers. *)

(** A pending fetch: [postJSON] first awaits [fetch], then [res.json()]. *)
Inductive phase :=
| AwaitHeaders
| AwaitBody.

(** The network calls the script has made. *)
Inductive call :=
| CallAbort (c : nat)
| CallFetch (c : nat) (task : jsstring).

Record state := {
  input_value : jsstring;          (* input.value *)
  lastController : option nat;
  debounce : option nat;
  recs_hidden : bool;              (* recs.classList has "hidden" *)
  grid : jsstring;                 (* grid.innerHTML *)
  shown_by : option nat;           (* bookkeeping: the request whose response
                                      filled the grid, if it holds cards *)
  clock : nat;                     (* milliseconds *)
  timers : list (nat * nat);       (* pending timers: id and due time *)
  next_timer : nat;
  next_controller : nat;
  inflight : list (nat * phase);   (* pending fetches, by their controller *)
  calls : list call                (* newest first *)
}.

(** What the environment does to the page. *)
Inductive event :=
| Input (text : jsstring)            (* the user edits the field *)
| Elapse (ms : nat)                  (* time passes, due timers fire *)
| Headers (c : nat) (status : nat)   (* the response to c's fetch arrives *)
| Body (c : nat) (json : option value)
                                     (* its body was read: the parsed value,
                                        or None when it is no JSON *)
| Failed (c : nat).                    (* c's fetch fails in transport *)

Definition init (hidden : bool) (html value : jsstring) : state :=
  {| input_value := value; lastController := None; debounce := None;
     recs_hidden := hidden; grid := html; shown_by := None;
     clock := 0; timers := []; next_timer := 0; next_controller := 0;
     inflight := []; calls := [] |}.

(** [recs.classList.add("hidden"); grid.innerHTML = ""] *)
Definition hide_and_clear (s : state) : state :=
  {| input_value := input_value s; lastController := lastController s;
     debounce := debounce s;
     recs_hidden := true; grid := []; shown_by := None;
     clock := clock s; timers := timers s; next_timer := next_timer s;
     next_controller := next_controller s; inflight := inflight s;
     calls := calls s |}.

(** [grid.innerHTML = html; recs.classList.remove("hidden")], in the run
    that awaited request [c]. *)
Definition show_cards (c : nat) (html : jsstring) (s : state) : state :=
  {| input_value := input_value s; lastController := lastController s;
     debounce := debounce s;
     recs_hidden := false; grid := html; shown_by := Some c;
     clock := clock s; timers := timers s; next_timer := next_timer s;
     next_controller := next_controller s; inflight := inflight s;
     calls := calls s |}.

Definition is_controller {A} (c : nat) (r : nat * A) : bool :=
  Nat.eqb (fst r) c.

Definition set_inflight (l : list (nat * phase)) (s : state) : state :=
  {| input_value := input_value s; lastController := lastController s;
     debounce := debounce s;
     recs_hidden := recs_hidden s; grid := grid s; shown_by := shown_by s;
     clock := clock s; timers := timers s; next_timer := next_timer s;
     next_controller := next_controller s; inflight := l;
     calls := calls s |}.

Definition set_calls (l : list call) (s : state) : state :=
  {| input_value := input_value s; lastController := lastController s;
     debounce := debounce s;
     recs_hidden := recs_hidden s; grid := grid s; shown_by := shown_by s;
     clock := clock s; timers := timers s; next_timer := next_timer s;
     next_controller := next_controller s; inflight := inflight s;
     calls := l |}.

Definition set_lastController (c : option nat) (s : state) : state :=
  {| input_value := input_value s; lastController := c;
     debounce := debounce s;
     recs_hidden := recs_hidden s; grid := grid s; shown_by := shown_by s;
     clock := clock s; timers := timers s; next_timer := next_timer s;
     next_controller := next_controller s; inflight := inflight s;
     calls := calls s |}.

Definition set_debounce (t : option nat) (s : state) : state :=
  {| input_value := input_value s; lastController := lastController s;
     debounce := t;
     recs_hidden := recs_hidden s; grid := grid s; shown_by := shown_by s;
     clock := clock s; timers := timers s; next_timer := next_timer s;
     next_controller := next_controller s; inflight := inflight s;
     calls := calls s |}.

Definition set_input_value (text : jsstring) (s : state) : state :=
  {| input_value := text; lastController := lastController s;
     debounce := debounce s;
     recs_hidden := recs_hidden s; grid := grid s; shown_by := shown_by s;
     clock := clock s; timers := timers s; next_timer := next_timer s;
     next_controller := next_controller s; inflight := inflight s;
     calls := calls s |}.

Definition set_timers (l : list (nat * nat)) (s : state) : state :=
  {| input_value := input_value s; lastController := lastController s;
     debounce := debounce s;
     recs_hidden := recs_hidden s; grid := grid s; shown_by := shown_by s;
     clock := clock s; timers := l; next_timer := next_timer s;
     next_controller := next_controller s; inflight := inflight s;
     calls := calls s |}.

(** The clock moves on by [ms] and the pending timers become [left]. *)
Definition tick (ms : nat) (left : list (nat * nat)) (s : state) : state :=
  {| input_value := input_value s; lastController := lastController s;
     debounce := debounce s;
     recs_hidden := recs_hidden s; grid := grid s; shown_by := shown_by s;
     clock := (clock s + ms)%nat; timers := left; next_timer := next_timer s;
     next_controller := next_controller s; inflight := inflight s;
     calls := calls s |}.

(** [new AbortController()]: a controller no one has yet. *)
Definition new_AbortController (s : state) : nat * state :=
  (next_controller s,
   {| input_value := input_value s; lastController := lastController s;
      debounce := debounce s;
      recs_hidden := recs_hidden s; grid := grid s; shown_by := shown_by s;
      clock := clock s; timers := timers s; next_timer := next_timer s;
      next_controller := S (next_controller s); inflight := inflight s;
      calls := calls s |}).

(** [c.abort()]: the fetches that hold [c]'s signal end (each rejects with
    an AbortError: see [run] for when the runs awaiting them resume). *)
Definition abort (c : nat) (s : state) : state :=
  set_calls (CallAbort c :: calls s)
    (set_inflight
       (List.filter (fun r => negb (is_controller c r)) (inflight s)) s).

(** [postJSON("/api/recommend", { task }, { signal })], up to its first
    [await]: the fetch is started. What [postJSON] gives in the end is
    decided by the events [Headers], [Body] and [Failed] below. *)
Definition postJSON (signal : nat) (task : jsstring) (s : state) : state :=
  set_calls (CallFetch signal task :: calls s)
    (set_inflight (inflight s ++ [(signal, AwaitHeaders)]) s).

(** [res.json()]: the parsed body, or a SyntaxError when it is no JSON. *)
Definition res_json (json : option value) : result value :=
  match json with
  | Some data => Ok data
  | None => Throw SyntaxError
  end.

(** [clearTimeout(t)]; an id that is not pending (or [null]) does nothing. *)
Definition clearTimeout (t : option nat) (s : state) : state :=
  set_timers
    match t with
    | Some id => List.filter (fun p => negb (Nat.eqb (fst p) id)) (timers s)
    | None => timers s
    end s.

(** [setTimeout(run, delay)]: the id of the new timer, and the host with it. *)
Definition setTimeout (delay : nat) (s : state) : nat * state :=
  (next_timer s,
   {| input_value := input_value s; lastController := lastController s;
      debounce := debounce s;
      recs_hidden := recs_hidden s; grid := grid s; shown_by := shown_by s;
      clock := clock s;
      timers := timers s ++ [(next_timer s, (clock s + delay)%nat)];
      next_timer := S (next_timer s);
      next_controller := next_controller s; inflight := inflight s;
      calls := calls s |}).

(** The body of [run]'s [try] once [postJSON] has given [data]. *)
Definition try_body (c : nat) (data : value) (s : state) : result state :=
  let* tools := get data (lit "tools") in
  let tools := or_else tools (Arr []) in
  let* empty := no_length tools in
  if (empty : bool) then Ok (hide_and_clear s)
  else
    let* cards := slice_map tools 5 renderToolCard in
    Ok (show_cards c (join [] cards) s).

(** [run] resumes when its [postJSON] settles: with the parsed value, or
    with what it threw. The [catch] takes every exception. *)
Definition settle (c : nat) (r : result value) (s : state) : state :=
  match (let* data := r in try_body c data s) with
  | Ok s' => s'
  | Throw _ => hide_and_clear s
  end.

(** [run], up to its first suspension. A short task returns at once. Else
    the last controller is aborted, a new controller is made and its fetch
    started; and once [run] is suspended at the [await], the runs that were
    waiting on an aborted fetch resume, in their [catch], with the
    AbortError. *)
Definition run (s : state) : state :=
  let task := trim (input_value s) in
  if Nat.ltb (length task) 3 then hide_and_clear s
  else
    let woken :=
      match lastController s with
      | Some c => List.filter (fun r => is_controller c r) (inflight s)
      | None => []
      end in
    let s1 :=
      match lastController s with
      | Some c => abort c s
      | None => s
      end in
    let '(c', s2) := new_AbortController s1 in
    let s3 := set_lastController (Some c') s2 in
    let s4 := postJSON c' task s3 in
    fold_left (fun s' r => settle (fst r) (Throw AbortError) s') woken s4.

(** The input listener: [clearTimeout(debounce); debounce = setTimeout(run, 450)],
    after the field took the new text. *)
Definition on_input (text : jsstring) (s : state) : state :=
  let s1 := set_input_value text s in
  let s2 := clearTimeout (debounce s1) s1 in
  let '(t, s3) := setTimeout 450 s2 in
  set_debounce (Some t) s3.

(** Time passes: the timers that are due fire, oldest first (all timers wait
    the same 450ms, so the list is in due order); each one calls [run]. *)
Definition elapse (ms : nat) (s : state) : state :=
  let now := (clock s + ms)%nat in
  let due := List.filter (fun p => Nat.leb (snd p) now) (timers s) in
  let later := List.filter (fun p => negb (Nat.leb (snd p) now)) (timers s) in
  fold_left (fun s' _ => run s') due (tick ms later s).

Definition phase_eqb (p q : phase) : bool :=
  match p, q with
  | AwaitHeaders, AwaitHeaders | AwaitBody, AwaitBody => true
  | _, _ => false
  end.

(** Is [c]'s fetch pending, in phase [p]? *)
Definition waiting (c : nat) (p : phase) (s : state) : bool :=
  existsb (fun r => is_controller c r && phase_eqb (snd r) p) (inflight s).

Definition without (c : nat) (s : state) : state :=
  set_inflight (List.filter (fun r => negb (is_controller c r)) (inflight s)) s.

(** One event. The host settles only a fetch that is pending, and in the
    phase the event belongs to; the status of a response is not looked at
    ([postJSON] goes straight to [res.json()]). *)
Definition step (e : event) (s : state) : state :=
  match e with
  | Input text => on_input text s
  | Elapse ms => elapse ms s
  | Headers c _ =>
      if waiting c AwaitHeaders s then
        set_inflight
          (map (fun r => if is_controller c r then (c, AwaitBody) else r)
             (inflight s)) s
      else s
  | Body c json =>
      if waiting c AwaitBody s then
        settle c (res_json json) (without c s)
      else s
  | Failed c =>
      if existsb (is_controller c) (inflight s) then
        settle c (Throw NetworkError) (without c s)
      else s
  end.

Definition run_events (evs : list event) (s : state) : state :=
  fold_left (fun s' e => step e s') evs s.

Inductive reachable : state -> Prop :=
| reachable_init hidden html value : reachable (init hidden html value)
| reachable_step e s : reachable s -> reachable (step e s).

(** The fetches made so far, newest first. *)
Definition fetched (s : state) : list (nat * jsstring) :=
  flat_map (fun k => match k with
                     | CallFetch c task => [(c, task)]
                     | CallAbort _ => []
                     end) (calls s).

(** A parsed object, from its properties. *)
Definition object (props : list (string * value)) : value :=
  Obj (list_to_map (map (fun p => (lit (fst p), snd p)) props)).

(** ** Vocabulary of the properties

    [prop tool key] is [tool.key], [undefined] where reading it throws. *)
Definition prop (tool : value) (key : string) : value :=
  match get tool (lit key) with
  | Ok v => v
  | Throw _ => Undefined
  end.

(** The elements of an array value. *)
Definition elements (v : value) : list value :=
  match v with
  | Arr l => l
  | _ => []
  end.

(** What a computation of a string gave, the empty string where it threw. *)
Definition returned (r : result jsstring) : jsstring :=
  match r with
  | Ok s => s
  | Throw _ => []
  end.

(** The string [String(v)] gives, where it gives one. *)
Definition printed (v : value) : jsstring := returned (String_ v).

(** Does [String(v)] return? It throws on an object that has a [toString]
    of its own, and on an array that holds one, at any depth. *)
Fixpoint prints (v : value) : bool :=
  match v with
  | Arr l =>
      forallb (fun e => match e with
                        | Undefined | Null => true
                        | _ => prints e
                        end) l
  | Obj m =>
      match m !! lit "toString" with
      | Some _ => false
      | None => true
      end
  | _ => true
  end.

(** Induction on a value, with the hypothesis for every element of an
    array. *)
Definition value_ind_elements (P : value -> Prop)
  (HUndefined : P Undefined) (HNull : P Null)
  (HBool : forall b, P (Bool b)) (HNum : forall text, P (Num text))
  (HStr : forall s, P (Str s))
  (HArr : forall l, Forall P l -> P (Arr l))
  (HObj : forall m, P (Obj m)) : forall v, P v :=
  fix go (v : value) : P v :=
    match v with
    | Undefined => HUndefined
    | Null => HNull
    | Bool b => HBool b
    | Num text => HNum text
    | Str s => HStr s
    | Arr l =>
        HArr l
          ((fix go_elements (l : list value) : Forall P l :=
              match l with
              | [] => @List.Forall_nil value P
              | e :: l' => @List.Forall_cons value P e l' (go e) (go_elements l')
              end) l)
    | Obj m => HObj m
    end.

(** The texts [renderToolCard] puts into its template, substitution by
    substitution, where each of them is computed without an exception. *)
Definition icon_text (tool : value) : jsstring :=
  returned (escapeHTML (or_else (prop tool "icon") (Str (lit "AI")))).
Definition name_text (tool : value) : jsstring :=
  returned (escapeHTML (prop tool "name")).
Definition pricing_text (tool : value) : jsstring :=
  returned (escapeHTML (or_else (prop tool "pricing_type") (Str []))).
Definition description_text (tool : value) : jsstring :=
  returned (escapeHTML (or_else (prop tool "description") (Str []))).
Definition category_text (tool : value) : jsstring :=
  returned (escapeHTML (or_else (prop tool "category") (Str []))).
Definition use_cases_shown (tool : value) : list value :=
  firstn 3 (elements (or_else (prop tool "use_cases") (Arr []))).
Definition pills_text (tool : value) : jsstring :=
  join [] (map (fun t => returned (pill t)) (use_cases_shown tool)).
Definition visit_text (tool : value) : jsstring :=
  printed (prop tool "url").

(** Do the substitutions the template computes after the link all return?
    Each text has to print, the use cases have to be an array whose first
    three elements print, and the [url] has to print. *)
Definition texts_print (tool : value) : bool :=
  prints (or_else (prop tool "icon") (Str (lit "AI")))
  && prints (prop tool "name")
  && prints (or_else (prop tool "pricing_type") (Str []))
  && prints (or_else (prop tool "description") (Str []))
  && prints (or_else (prop tool "category") (Str []))
  && match or_else (prop tool "use_cases") (Arr []) with
     | Arr l => forallb prints (firstn 3 l)
     | _ => false
     end
  && prints (prop tool "url").

(** A property that is not there, or is [null]. *)
Definition absent (v : value) : Prop := v = Undefined \/ v = Null.

(** Escaping as the specification words it: each of the five characters
    gives way to its entity, every other code unit stays. *)
Definition escape_unit (c : N) : jsstring :=
  if c =? u_amp then lit "&amp;"
  else if c =? u_lt then lit "&lt;"
  else if c =? u_gt then lit "&gt;"
  else if c =? u_quot then lit "&quot;"
  else if c =? u_apos then lit "&#39;"
  else [c].

Definition html_escape (s : jsstring) : jsstring := flat_map escape_unit s.

Definition is_special (c : N) : bool :=
  (c =? u_amp) || (c =? u_lt) || (c =? u_gt) || (c =? u_quot) || (c =? u_apos).

Definition entities : list jsstring :=
  [lit "&amp;"; lit "&lt;"; lit "&gt;"; lit "&quot;"; lit "&#39;"].

(** Text in which none of the five characters stands for itself: it is made
    of other code units and of whole entities. *)
Inductive escaped_text : jsstring -> Prop :=
| escaped_nil : escaped_text []
| escaped_plain c s :
    is_special c = false -> escaped_text s -> escaped_text (c :: s)
| escaped_entity e s :
    In e entities -> escaped_text s -> escaped_text (e ++ s).

(** [t] occurs in [s]. *)
Definition occurs (t s : jsstring) : Prop :=
  exists before after, s = before ++ t ++ after.

(** A scanner for the opening of a script element: [scan q s] reads [s]
    having just read the first [q] code units of [<script], and answers
    [None] once it has read all seven. *)
Definition script_open : jsstring := lit "<script".

Definition scan_unit (q : nat) (c : N) : option nat :=
  if c =? u_lt then Some 1%nat
  else if nth q script_open 0 =? c then
    (if Nat.eqb q 6 then None else Some (S q))
  else Some 0%nat.

Fixpoint scan (q : nat) (s : jsstring) : option nat :=
  match s with
  | [] => Some q
  | c :: s' =>
      match scan_unit q c with
      | Some q' => scan q' s'
      | None => None
      end
  end.

(** ** Predicates, sample tools and sample pages *)

(** A tool named [<script>x</script>], and its card. *)
Definition script_tool : value :=
  object [("slug", Str (lit "x")); ("name", Str (lit "<script>x</script>"));
          ("url", Str (lit "https://example.com/x?a=1&b=2"))]%string.

Definition script_card : jsstring :=
  match renderToolCard script_tool with
  | Ok html => html
  | Throw _ => []
  end.

(** The same name, with a [url] that closes its attribute and opens a
    script element. *)
Definition script_url_tool : value :=
  object [("slug", Str (lit "x")); ("name", Str (lit "<script>x</script>"));
          ("url", Str (tpl "'><script>alert(1)</script>"))]%string.

(** An object as [JSON.parse] gives it for [{toString: 1}]: its own
    [toString] is no function. *)
Definition own_toString : value := object [("toString", Num (lit "1"))]%string.

(** A tool whose name cannot be printed. *)
Definition unprintable_tool : value :=
  object [("slug", Str (lit "x")); ("name", own_toString);
          ("url", Str (lit "u"))]%string.

(** A tool with only the three required fields besides its use cases. *)
Definition bare_tool : value :=
  object [("slug", Str (lit "x")); ("name", Str (lit "X"));
          ("url", Str (lit "https://example.com/x"))]%string.

(** A tool without [name] and without [icon]. *)
Definition nameless_tool : value :=
  object [("slug", Str (lit "x")); ("url", Str (lit "u"))]%string.

(** The markup just before and just after the visit link's URL, and that of
    the details link. *)
Definition href_open : jsstring := tpl "<a href='".
Definition visit_attributes : jsstring :=
  tpl "' target='_blank' rel='noopener noreferrer' ".
Definition details_rest : jsstring :=
  tpl "' class='text-sm font-semibold text-white/70 hover:text-white'>Details</a>".

(** A tool whose [url] holds a double quote and an ampersand, and a slug
    that needs encoding. *)
Definition quoted_tool : value :=
  object [("slug", Str (lit "a b/c")); ("name", Str (lit "Q"));
          ("url", Str (tpl "https://e.x/?a='1'&b=<2>"))]%string.

(** The panel is hidden and the grid is empty. *)
Definition cleared (s : state) : Prop :=
  recs_hidden s = true /\ grid s = [] /\ shown_by s = None.

(** What every reachable state satisfies: the pending fetch, if any, is the
    last controller's, and the pending timer, if any, is the one in
    [debounce] and is not yet due. *)
Record wf (s : state) : Prop := {
  wf_inflight :
    forall r, In r (inflight s) -> lastController s = Some (fst r);
  wf_one : (length (inflight s) <= 1)%nat;
  wf_fresh :
    forall c, lastController s = Some c -> (c < next_controller s)%nat;
  wf_timers : forall p, In p (timers s) -> debounce s = Some (fst p);
  wf_one_timer : (length (timers s) <= 1)%nat;
  wf_pending : forall p, In p (timers s) -> (clock s < snd p)%nat
}.

(** The state [run] leaves behind when it starts a request from a
    well-formed state, before any aborted run has resumed. *)
Definition started (s : state) : state :=
  {| input_value := input_value s;
     lastController := Some (next_controller s);
     debounce := debounce s;
     recs_hidden := recs_hidden s; grid := grid s; shown_by := shown_by s;
     clock := clock s; timers := timers s; next_timer := next_timer s;
     next_controller := S (next_controller s);
     inflight := [(next_controller s, AwaitHeaders)];
     calls := CallFetch (next_controller s) (trim (input_value s))
              :: match lastController s with
                 | Some c => [CallAbort c]
                 | None => []
                 end ++ calls s |}.

(** The page after [abc] was typed and its request started, the field now
    reading [abcd]. *)
Definition one_pending : state :=
  run_events [Input (lit "abc"); Elapse 450; Input (lit "abcd")]
    (init true [] []).

(** The field holds two letters between blanks while a request is pending. *)
Definition short_pending : state :=
  run_events [Input (lit "abc"); Elapse 450; Input (lit "  ab  ")]
    (init false (lit "<old>") []).

(** After request [b] was started: the latest controller is [b] or a later
    one, and the grid is empty and hidden or holds the cards of a request
    between [b] and the latest. *)
Definition fresh_ui (b : nat) (s : state) : Prop :=
  exists l,
    lastController s = Some l /\ (b <= l)%nat
    /\ (cleared s
        \/ exists c, shown_by s = Some c /\ recs_hidden s = false
                     /\ (b <= c)%nat /\ (c <= l)%nat).

(** A response that carries the given tools. *)
Definition response (tools : list value) : value :=
  object [("tools"%string, Arr tools)].

(** Request 0 is still pending when [abcd] starts request 1; the response
    to request 0 arrives all the same, then the one to request 1. *)
Definition late_reply : list event :=
  [Headers 0 200; Body 0 (Some (response [bare_tool])); Failed 0;
   Headers 1 200; Body 1 (Some (response [script_tool]))].

(** Request 0 has its response headers and awaits the body. *)
Definition body_pending : state :=
  run_events [Input (lit "abc"); Elapse 450; Headers 0 404; Input (lit "abcd")]
    (init false (lit "<old>") []).

(** The page after a response with status 500 whose body is JSON with a
    tool in it. *)
Definition error_with_tools : state :=
  run_events [Input (lit "abc"); Elapse 450; Headers 0 500;
              Body 0 (Some (response [bare_tool]))]
    (init true [] []).

(** Seven tools, each with four use cases. *)
Definition tool_named (slug : string) : value :=
  object [("slug", Str (lit slug)); ("name", Str (lit slug));
          ("url", Str (lit "https://example.com/"));
          ("use_cases",
           Arr [Str (lit "a"); Str (lit "b"); Str (lit "c"); Str (lit "d")])]%string.

Definition seven_tools : list value :=
  map tool_named ["t1"; "t2"; "t3"; "t4"; "t5"; "t6"; "t7"]%string.

Definition five_cards : list jsstring :=
  match mapM renderToolCard (firstn 5 seven_tools) with
  | Ok cards => cards
  | Throw _ => []
  end.

(** A tool whose slug is a lone surrogate, and the page after a response
    that holds it. *)
Definition unpaired_tool : value :=
  object [("slug", Str [55296]); ("name", Str (lit "X"));
          ("url", Str (lit "https://example.com/x"))]%string.

Definition unpaired_reply : state :=
  run_events [Input (lit "abc"); Elapse 450; Headers 0 200;
              Body 0 (Some (response [unpaired_tool]))]
    (init false (lit "<old>") []).

(** A burst: events in which less than 450ms pass between one input and the
    next, and after the last one so far. [idle] is the time since the last
    input. Responses may arrive in between. *)
Fixpoint rapid (idle : nat) (evs : list event) : bool :=
  match evs with
  | [] => true
  | Input _ :: evs' => rapid 0 evs'
  | Elapse ms :: evs' => Nat.ltb (idle + ms) 450 && rapid (idle + ms) evs'
  | _ :: evs' => rapid idle evs'
  end.

(** The text of the last input, [text] if there is none. *)
Fixpoint final_text (text : jsstring) (evs : list event) : jsstring :=
  match evs with
  | [] => text
  | Input text' :: evs' => final_text text' evs'
  | _ :: evs' => final_text text evs'
  end.

(** One timer is pending, due at [due]. *)
Definition armed (due : nat) (s : state) : Prop :=
  exists t, timers s = [(t, due)].

(** ** Further vocabulary *)

(** [s.isWellFormed()]: no surrogate stands alone. *)
Fixpoint isWellFormed (s : jsstring) : bool :=
  match s with
  | [] => true
  | c :: s' =>
      if is_low_surrogate c then false
      else if is_high_surrogate c then
        match s' with
        | d :: s'' => is_low_surrogate d && isWellFormed s''
        | [] => false
        end
      else isWellFormed s'
  end.

(** The characters that end a double-quoted attribute or open markup. *)
Definition breaks_attribute (c : N) : bool :=
  (c =? u_quot) || (c =? u_amp) || (c =? u_lt) || (c =? u_gt).

(** The properties of a tool [renderToolCard] reads. *)
Definition tool_keys : list jsstring :=
  [lit "slug"; lit "url"; lit "icon"; lit "name"; lit "pricing_type";
   lit "description"; lit "category"; lit "use_cases"].

(** The panel is hidden and the grid empty, or the panel is shown and the
    grid is not empty. *)
Definition panel_matches_grid (s : state) : Prop :=
  (recs_hidden s = true /\ grid s = [])
  \/ (recs_hidden s = false /\ grid s <> []).

(** The shape of a call log, newest first: the first request is a fetch;
    every later one is the abort of the controller before it, then the
    fetch, with a controller that is new. *)
Inductive chain : list call -> Prop :=
| chain_nil : chain []
| chain_first c task : chain [CallFetch c task]
| chain_next c' task' c task rest :
    (c < c')%nat ->
    chain (CallFetch c task :: rest) ->
    chain (CallFetch c' task' :: CallAbort c :: CallFetch c task :: rest).

(** How many times the user edited the field. *)
Fixpoint inputs (evs : list event) : nat :=
  match evs with
  | [] => 0%nat
  | Input _ :: evs' => S (inputs evs')
  | _ :: evs' => inputs evs'
  end.

(** A task as [run] sends it: trimmed, and three code units or more. *)
Definition sendable (task : jsstring) : Prop :=
  (3 <= length task)%nat /\ trim task = task.

(** A tool whose slug tries to close the attribute and open a script. *)
Definition hostile_slug_tool : value :=
  object [("slug", Str (tpl "'><script>alert(1)</script>&"));
          ("name", Str (lit "H")); ("url", Str (lit "u"))]%string.

(** The properties of [bare_tool], and the ones of a tool with five use
    cases. *)
Definition bare_props : gmap jsstring value :=
  list_to_map [(lit "slug", Str (lit "x")); (lit "name", Str (lit "X"));
               (lit "url", Str (lit "https://example.com/x"))].

Definition five_use_cases : list value :=
  [Str (lit "a"); Str (lit "b"); Str (lit "c"); Str (lit "d"); Null].

(** The page showing the card of [bare_tool], with [abcd] now in the field
    and its timer pending. *)
Definition answered : state :=
  run_events [Input (lit "abc"); Elapse 450; Headers 0 200;
              Body 0 (Some (response [bare_tool])); Elapse 100;
              Input (lit "abcd"); Elapse 200]
    (init true [] []).

(** * Properties *)

(** ** Strings *)

Section Strings.

Example escapeHTML_five :
  escapeHTML (Str (tpl "a&b<c>d'e" ++ [u_apos]))
  = Ok (lit "a&amp;b&lt;c&gt;d&quot;e&#39;").
Proof. reflexivity. Qed.

Example escapeHTML_entity_again :
  escapeHTML (Str (lit "&lt;")) = Ok (lit "&amp;lt;").
Proof. reflexivity. Qed.

Example trim_blanks :
  trim ([160; 9] ++ lit " a b " ++ [10; 8232; 65279]) = lit "a b".
Proof. reflexivity. Qed.

Example encodeURIComponent_text :
  encodeURIComponent (lit "a b/c~'" ++ [233; 8364; 55357; 56832])
  = Ok (lit "a%20b%2Fc~'%C3%A9%E2%82%AC%F0%9F%98%80").
Proof. reflexivity. Qed.

Example String_array :
  String_ (Arr [Str (lit "a"); Null; Arr [Num (lit "3"); Bool true]; Obj ∅])
  = Ok (lit "a,,3,true,[object Object]").
Proof. reflexivity. Qed.

Example String_own_toString :
  String_ (Obj (<[lit "toString":=Num (lit "1")]> ∅)) = Throw TypeError
  /\ String_ (Arr [Str (lit "a");
                   Arr [Obj (<[lit "toString":=Num (lit "1")]> ∅)]])
     = Throw TypeError
  /\ escapeHTML (Obj (<[lit "toString":=Null]> ∅)) = Throw TypeError.
Proof. repeat split; vm_compute; reflexivity. Qed.

Lemma replaceAll_app p r (a b : jsstring) :
  replaceAll p r (a ++ b) = replaceAll p r a ++ replaceAll p r b.
Proof. unfold replaceAll. apply flat_map_app. Qed.

Lemma escapeHTML_String_ (v : value) :
  escapeHTML v = let* s := String_ v in escapeHTML (Str s).
Proof. unfold escapeHTML. cbn [String_ bind]. now destruct (String_ v). Qed.

Lemma escapeHTML_unit (c : N) : escapeHTML (Str [c]) = Ok (escape_unit c).
Proof.
  unfold escapeHTML, escape_unit, replaceAll. cbn [String_ bind flat_map].
  destruct (N.eqb_spec c u_amp) as [->|_]; [reflexivity|].
  cbn [app flat_map].
  destruct (N.eqb_spec c u_lt) as [->|_]; [reflexivity|].
  cbn [app flat_map].
  destruct (N.eqb_spec c u_gt) as [->|_]; [reflexivity|].
  cbn [app flat_map].
  destruct (N.eqb_spec c u_quot) as [->|_]; [reflexivity|].
  cbn [app flat_map].
  destruct (N.eqb_spec c u_apos) as [->|_]; reflexivity.
Qed.

Lemma escapeHTML_cons (c : N) (s : jsstring) :
  escapeHTML (Str (c :: s))
  = Ok (returned (escapeHTML (Str [c])) ++ returned (escapeHTML (Str s))).
Proof.
  unfold escapeHTML. cbn [String_ bind returned].
  change (c :: s) with ([c] ++ s).
  now rewrite !replaceAll_app.
Qed.

(** The five passes of [escapeHTML] amount to one pass that escapes each
    code unit on its own: the ampersands the later passes bring in are not
    escaped again, because [&] is replaced first. *)
Lemma escapeHTML_Str (s : jsstring) : escapeHTML (Str s) = Ok (html_escape s).
Proof.
  induction s as [|c s IH]; [reflexivity|].
  rewrite escapeHTML_cons, escapeHTML_unit, IH. reflexivity.
Qed.

Lemma escapeHTML_html_escape (v : value) :
  escapeHTML v = let* s := String_ v in Ok (html_escape s).
Proof.
  rewrite escapeHTML_String_. destruct (String_ v) as [s|e]; [|reflexivity].
  cbn [bind]. apply escapeHTML_Str.
Qed.

Lemma escapeHTML_Ok (v : value) (text : jsstring) :
  escapeHTML v = Ok text ->
  String_ v = Ok (printed v) /\ text = html_escape (printed v).
Proof.
  rewrite escapeHTML_html_escape. unfold printed.
  destruct (String_ v) as [s|e]; [|discriminate].
  cbn [bind returned]. intros [= <-]. now split.
Qed.

Lemma returned_escapeHTML (v : value) :
  returned (escapeHTML v) = html_escape (printed v).
Proof.
  rewrite escapeHTML_html_escape. unfold printed.
  now destruct (String_ v).
Qed.

Lemma sequence_map_prints (f : value -> result jsstring) (l : list value) :
  Forall (fun e => f e = Throw TypeError \/ exists s, f e = Ok s) l ->
  sequence (map f l) = Throw TypeError
  \/ exists parts, sequence (map f l) = Ok parts.
Proof.
  induction 1 as [|e l He _ IH]; [right; now exists []|].
  cbn [map sequence]. destruct He as [->|[s ->]]; [now left|].
  cbn [bind]. destruct IH as [->|[parts ->]]; [now left|].
  right. now eexists.
Qed.

(** [String(v)] returns exactly on the values that [prints] accepts, and
    what it throws otherwise is a TypeError. *)
Lemma String_prints (v : value) :
  String_ v = if prints v then Ok (printed v) else Throw TypeError.
Proof.
  unfold printed.
  induction v as [| |b|text|s|l IH|m] using value_ind_elements;
    try reflexivity.
  - destruct b; reflexivity.
  - cbn [String_ prints].
    induction IH as [|e l He _ IHl]; [reflexivity|].
    cbn [map sequence forallb].
    assert (Hhead :
      match e with
      | Undefined | Null => Ok []
      | _ => String_ e
      end
      = if match e with
           | Undefined | Null => true
           | _ => prints e
           end
        then Ok (returned match e with
                          | Undefined | Null => Ok []
                          | _ => String_ e
                          end)
        else Throw TypeError).
    { destruct e; try reflexivity; exact He. }
    rewrite Hhead.
    destruct (match e with
              | Undefined | Null => true
              | _ => prints e
              end); [|reflexivity].
    cbn [bind andb].
    destruct (sequence (map (fun e0 => match e0 with
                                       | Undefined | Null => Ok []
                                       | _ => String_ e0
                                       end) l)) as [parts|e'];
      cbn [bind returned] in IHl |- *;
      destruct (forallb (fun e0 => match e0 with
                                   | Undefined | Null => true
                                   | _ => prints e0
                                   end) l);
      try discriminate IHl; try reflexivity.
    now injection IHl as <-.
  - cbn [String_ prints]. now destruct (m !! lit "toString").
Qed.

Lemma escapeHTML_prints (v : value) :
  escapeHTML v
  = if prints v then Ok (html_escape (printed v)) else Throw TypeError.
Proof.
  rewrite escapeHTML_html_escape, String_prints. now destruct (prints v).
Qed.

Lemma pill_prints (t : value) :
  pill t = if prints t then Ok (returned (pill t)) else Throw TypeError.
Proof.
  unfold pill. rewrite escapeHTML_prints. now destruct (prints t).
Qed.

Lemma mapM_pill_prints (l : list value) :
  mapM pill l
  = if forallb prints l
    then Ok (map (fun t => returned (pill t)) l)
    else Throw TypeError.
Proof.
  induction l as [|t l IH]; [reflexivity|].
  cbn [mapM map forallb]. rewrite pill_prints, IH.
  destruct (prints t); [|reflexivity]. cbn [bind andb].
  now destruct (forallb prints l).
Qed.

Lemma html_escape_app (a b : jsstring) :
  html_escape (a ++ b) = html_escape a ++ html_escape b.
Proof. apply flat_map_app. Qed.

Lemma escape_unit_cases (c : N) :
  (is_special c = false /\ escape_unit c = [c])
  \/ (is_special c = true /\ In (escape_unit c) entities).
Proof.
  unfold is_special, escape_unit, entities.
  destruct (c =? u_amp); [right; split; [reflexivity|]; simpl; tauto|].
  destruct (c =? u_lt); [right; split; [reflexivity|]; simpl; tauto|].
  destruct (c =? u_gt); [right; split; [reflexivity|]; simpl; tauto|].
  destruct (c =? u_quot); [right; split; [reflexivity|]; simpl; tauto|].
  destruct (c =? u_apos); [right; split; [reflexivity|]; simpl; tauto|].
  left. split; reflexivity.
Qed.

Lemma html_escape_escaped (s : jsstring) : escaped_text (html_escape s).
Proof.
  induction s as [|c s IH]; [constructor|].
  change (html_escape (c :: s)) with (escape_unit c ++ html_escape s).
  destruct (escape_unit_cases c) as [[Hc ->]|[_ Hin]].
  - now apply escaped_plain.
  - now apply escaped_entity.
Qed.

Lemma escaped_text_no_lt (s : jsstring) :
  escaped_text s -> Forall (fun c => c <> u_lt) s.
Proof.
  induction 1 as [|c s Hc _ IH|e s He _ IH].
  - constructor.
  - constructor; [|exact IH].
    intros ->. discriminate Hc.
  - apply Forall_app. split; [|exact IH].
    simpl in He.
    destruct He as [<-|[<-|[<-|[<-|[<-|[]]]]]];
      repeat constructor; discriminate.
Qed.

End Strings.

(** ** The scanner *)

Section Scanner.

Lemma scan_app (q : nat) (a b : jsstring) :
  scan q (a ++ b) = match scan q a with
                    | Some q' => scan q' b
                    | None => None
                    end.
Proof.
  revert q. induction a as [|c a IH]; intros q; [reflexivity|].
  cbn [app scan]. destruct (scan_unit q c); [apply IH|reflexivity].
Qed.

(** The scanner misses no occurrence. *)
Lemma scan_complete (s : jsstring) : occurs script_open s -> scan 0 s = None.
Proof.
  intros (before & after & ->). generalize 0%nat.
  induction before as [|c before IH]; intros q.
  - reflexivity.
  - cbn [app scan]. destruct (scan_unit q c); [apply IH|reflexivity].
Qed.

(** Text without [<] leaves the scanner at rest. *)
Lemma scan_no_lt (s : jsstring) :
  Forall (fun c => c <> u_lt) s -> scan 0 s = Some 0%nat.
Proof.
  induction 1 as [|c s Hc _ IH]; [reflexivity|].
  cbn [scan]. unfold scan_unit.
  destruct (N.eqb_spec c u_lt) as [->|_]; [contradiction|].
  cbn [nth script_open lit list_ascii_of_string map].
  destruct (N.eqb_spec (N_of_ascii "<") c) as [<-|_]; [now contradiction Hc|].
  exact IH.
Qed.

Lemma scan_rest (a b : jsstring) :
  scan 0 a = Some 0%nat -> scan 0 b = Some 0%nat -> scan 0 (a ++ b) = Some 0%nat.
Proof. intros Ha Hb. now rewrite scan_app, Ha. Qed.

End Scanner.

(** ** [encodeURIComponent] *)

Section Encoding.

Lemma hex_digit_no_lt (d : N) : hex_digit d <> u_lt.
Proof.
  unfold hex_digit, u_lt. destruct (N.ltb_spec d 10); lia.
Qed.

Lemma percent_no_lt (o : N) : Forall (fun c => c <> u_lt) (percent o).
Proof.
  unfold percent. repeat constructor; try apply hex_digit_no_lt. discriminate.
Qed.

Lemma percent_all_no_lt (cp : N) : Forall (fun c => c <> u_lt) (percent_all cp).
Proof.
  unfold percent_all. induction (utf8 cp) as [|o l IH]; [constructor|].
  cbn [flat_map]. apply Forall_app. split; [apply percent_no_lt|exact IH].
Qed.

Lemma encodeURIComponent_no_lt_bounded (n : nat) :
  forall s r, (length s <= n)%nat -> encodeURIComponent s = Ok r ->
              Forall (fun c => c <> u_lt) r.
Proof.
  induction n as [|n IH]; intros s r Hlen Henc.
  - destruct s; [|simpl in Hlen; lia]. injection Henc as <-. constructor.
  - destruct s as [|c s]; [injection Henc as <-; constructor|].
    cbn [encodeURIComponent] in Henc. cbn [length] in Hlen.
    destruct (is_unreserved c) eqn:Hu.
    + destruct (encodeURIComponent s) as [r'|] eqn:Hs; [|discriminate].
      injection Henc as <-. constructor.
      * intros ->. discriminate Hu.
      * apply (IH s); [lia|exact Hs].
    + destruct (is_low_surrogate c); [discriminate|].
      destruct (is_high_surrogate c).
      * destruct s as [|d s]; [discriminate|].
        destruct (is_low_surrogate d); [|discriminate].
        destruct (encodeURIComponent s) as [r'|] eqn:Hs; [|discriminate].
        injection Henc as <-. apply Forall_app. split.
        -- apply percent_all_no_lt.
        -- apply (IH s); [cbn [length] in Hlen; lia|exact Hs].
      * destruct (encodeURIComponent s) as [r'|] eqn:Hs; [|discriminate].
        injection Henc as <-. apply Forall_app. split.
        -- apply percent_all_no_lt.
        -- apply (IH s); [lia|exact Hs].
Qed.

(** An encoded component holds no [<]. *)
Lemma encodeURIComponent_no_lt (s r : jsstring) :
  encodeURIComponent s = Ok r -> Forall (fun c => c <> u_lt) r.
Proof. apply (encodeURIComponent_no_lt_bounded (length s)). lia. Qed.

End Encoding.

(** ** [renderToolCard] *)

Section Card.

Lemma mapM_Ok {A B} (f : A -> B) (l : list A) :
  mapM (fun a => Ok (f a)) l = Ok (map f l).
Proof.
  induction l as [|a l IH]; [reflexivity|].
  cbn [mapM map bind]. now rewrite IH.
Qed.

Lemma join_nil_cons (s : jsstring) (l : list jsstring) :
  join [] (s :: l) = s ++ join [] l.
Proof. destruct l; cbn [join app]; [now rewrite app_nil_r|reflexivity]. Qed.

Lemma get_prop (tool : value) (key : string) :
  tool <> Undefined -> tool <> Null -> get tool (lit key) = Ok (prop tool key).
Proof. intros H1 H2. unfold prop. destruct tool; try reflexivity; contradiction. Qed.

Lemma occurs_middle (a x b : jsstring) : occurs x (a ++ x ++ b).
Proof. now exists a, b. Qed.

Lemma occurs_app_r (a x s : jsstring) : occurs x s -> occurs x (a ++ s).
Proof.
  intros (before & after & ->). exists (a ++ before), after.
  now rewrite <- app_assoc.
Qed.

Lemma occurs_app_l (x s b : jsstring) : occurs x s -> occurs x (s ++ b).
Proof.
  intros (before & after & ->). exists before, (after ++ b).
  now rewrite <- !app_assoc.
Qed.

(** [renderToolCard] in full: when it throws, and what it returns. *)
Lemma renderToolCard_eq (tool : value) :
  renderToolCard tool =
  match tool with
  | Undefined | Null => Throw TypeError
  | _ =>
      if prints (prop tool "slug") then
        match encodeURIComponent (printed (prop tool "slug")) with
        | Throw e => Throw e
        | Ok encoded =>
            if texts_print tool then
              Ok (card (icon_text tool) (lit "/tools/" ++ encoded)
                    (name_text tool) (pricing_text tool)
                    (description_text tool) (category_text tool)
                    (pills_text tool) (visit_text tool))
            else Throw TypeError
        end
      else Throw TypeError
  end.
Proof.
  assert (Hgo : tool <> Undefined -> tool <> Null ->
    renderToolCard tool =
    if prints (prop tool "slug") then
      match encodeURIComponent (printed (prop tool "slug")) with
      | Throw e => Throw e
      | Ok encoded =>
          if texts_print tool then
            Ok (card (icon_text tool) (lit "/tools/" ++ encoded)
                  (name_text tool) (pricing_text tool)
                  (description_text tool) (category_text tool)
                  (pills_text tool) (visit_text tool))
          else Throw TypeError
      end
    else Throw TypeError).
  { intros H1 H2. unfold renderToolCard.
    rewrite !(get_prop tool) by assumption. cbn [bind].
    rewrite String_prints.
    destruct (prints (prop tool "slug")); [|reflexivity]. cbn [bind].
    destruct (encodeURIComponent (printed (prop tool "slug"))) as [encoded|e];
      [|reflexivity].
    cbn [bind].
    unfold texts_print, icon_text, name_text, pricing_text, description_text,
      category_text, pills_text, use_cases_shown, visit_text.
    rewrite !escapeHTML_prints, (String_prints (prop tool "url")).
    destruct (prints (or_else (prop tool "icon") (Str (lit "AI"))));
      [|reflexivity].
    destruct (prints (prop tool "name")); [|reflexivity].
    destruct (prints (or_else (prop tool "pricing_type") (Str [])));
      [|reflexivity].
    destruct (prints (or_else (prop tool "description") (Str [])));
      [|reflexivity].
    destruct (prints (or_else (prop tool "category") (Str [])));
      [|reflexivity].
    cbn [bind andb returned].
    destruct (or_else (prop tool "use_cases") (Arr [])); try reflexivity.
    cbn [slice_map elements]. rewrite mapM_pill_prints.
    destruct (forallb prints (firstn 3 l)); [|reflexivity].
    cbn [bind andb].
    destruct (prints (prop tool "url")); reflexivity. }
  destruct tool; try reflexivity; apply Hgo; discriminate.
Qed.

(** What a returned card is made of. *)
Lemma renderToolCard_Ok (tool : value) (html : jsstring) :
  renderToolCard tool = Ok html ->
  exists encoded,
    (prints (prop tool "slug") = true
     /\ encodeURIComponent (printed (prop tool "slug")) = Ok encoded
     /\ texts_print tool = true)
    /\ html = card (icon_text tool) (lit "/tools/" ++ encoded)
                (name_text tool) (pricing_text tool)
                (description_text tool) (category_text tool)
                (pills_text tool) (visit_text tool).
Proof.
  rewrite renderToolCard_eq. intros H.
  assert (Hgo :
    (if prints (prop tool "slug") then
       match encodeURIComponent (printed (prop tool "slug")) with
       | Throw e => Throw e
       | Ok encoded =>
           if texts_print tool then
             Ok (card (icon_text tool) (lit "/tools/" ++ encoded)
                   (name_text tool) (pricing_text tool)
                   (description_text tool) (category_text tool)
                   (pills_text tool) (visit_text tool))
           else Throw TypeError
       end
     else Throw TypeError) = Ok html).
  { destruct tool; try discriminate H; exact H. }
  clear H.
  destruct (prints (prop tool "slug")); [|discriminate].
  destruct (encodeURIComponent (printed (prop tool "slug"))) as [encoded|e];
    [|discriminate].
  destruct (texts_print tool); [|discriminate].
  exists encoded. split; [now repeat split|].
  now injection Hgo as <-.
Qed.

(** A card is returned for every tool but [null] and [undefined] whose slug
    prints and encodes and whose other substitutions return. *)
Lemma renderToolCard_returns (tool : value) (encoded : jsstring) :
  tool <> Undefined -> tool <> Null ->
  prints (prop tool "slug") = true ->
  encodeURIComponent (printed (prop tool "slug")) = Ok encoded ->
  texts_print tool = true ->
  renderToolCard tool
  = Ok (card (icon_text tool) (lit "/tools/" ++ encoded)
          (name_text tool) (pricing_text tool)
          (description_text tool) (category_text tool)
          (pills_text tool) (visit_text tool)).
Proof.
  intros H1 H2 Hslug Henc Htexts.
  rewrite renderToolCard_eq, Hslug, Henc, Htexts.
  destruct tool; try contradiction; eauto.
Qed.

(** What [texts_print] asks for, text by text. *)
Lemma texts_print_true (tool : value) :
  texts_print tool = true <->
  prints (or_else (prop tool "icon") (Str (lit "AI"))) = true
  /\ prints (prop tool "name") = true
  /\ prints (or_else (prop tool "pricing_type") (Str [])) = true
  /\ prints (or_else (prop tool "description") (Str [])) = true
  /\ prints (or_else (prop tool "category") (Str [])) = true
  /\ (exists l, or_else (prop tool "use_cases") (Arr []) = Arr l
                /\ forallb prints (firstn 3 l) = true)
  /\ prints (prop tool "url") = true.
Proof.
  unfold texts_print. rewrite !andb_true_iff.
  split.
  - intros [[[[[[H1 H2] H3] H4] H5] H6] H7].
    repeat split; try assumption.
    destruct (or_else (prop tool "use_cases") (Arr [])); try discriminate.
    now eexists.
  - intros (H1 & H2 & H3 & H4 & H5 & (l & -> & H6) & H7).
    repeat split; assumption.
Qed.

End Card.

(** ** Escaping in the card (C2) *)

Section CardEscaping.

Lemma prints_String_ (v : value) :
  prints v = true -> String_ v = Ok (printed v).
Proof. intros H. now rewrite String_prints, H. Qed.

Lemma returned_pill (t : value) :
  prints t = true ->
  returned (pill t) = pill_open ++ html_escape (printed t) ++ pill_close.
Proof. intros H. unfold pill. now rewrite escapeHTML_prints, H. Qed.

Lemma scan_escaped (v : value) :
  scan 0 (returned (escapeHTML v)) = Some 0%nat.
Proof.
  apply scan_no_lt, escaped_text_no_lt.
  rewrite returned_escapeHTML. apply html_escape_escaped.
Qed.

Lemma scan_pill (t : value) : scan 0 (returned (pill t)) = Some 0%nat.
Proof.
  unfold pill. rewrite escapeHTML_prints.
  destruct (prints t); [|reflexivity]. cbn [bind returned].
  repeat apply scan_rest; try reflexivity.
  apply scan_no_lt, escaped_text_no_lt, html_escape_escaped.
Qed.

Lemma scan_pills (l : list value) :
  scan 0 (join [] (map (fun t => returned (pill t)) l)) = Some 0%nat.
Proof.
  induction l as [|t l IH]; [reflexivity|].
  cbn [map]. rewrite join_nil_cons.
  apply scan_rest; [apply scan_pill|exact IH].
Qed.

(** A card whose two URLs hold no [<] never opens a script element. *)
Lemma scan_card (tool : value) (encoded : jsstring) :
  Forall (fun c => c <> u_lt) encoded ->
  Forall (fun c => c <> u_lt) (visit_text tool) ->
  scan 0 (card (icon_text tool) (lit "/tools/" ++ encoded)
            (name_text tool) (pricing_text tool)
            (description_text tool) (category_text tool)
            (pills_text tool) (visit_text tool)) = Some 0%nat.
Proof.
  intros Henc Hvisit.
  assert (Hhref : scan 0 (lit "/tools/" ++ encoded) = Some 0%nat).
  { apply scan_rest; [reflexivity|now apply scan_no_lt]. }
  unfold card, icon_text, name_text, pricing_text, description_text,
    category_text, pills_text.
  repeat apply scan_rest;
    try apply scan_escaped; try apply scan_pills; try exact Hhref;
    try (now apply scan_no_lt); reflexivity.
Qed.

Lemma pill_html_escape (l : list value) :
  forallb prints l = true ->
  map (fun t => returned (pill t)) l =
  map (fun t => pill_open ++ html_escape (printed t) ++ pill_close) l.
Proof.
  intros H. apply map_ext_in. intros t Ht. apply returned_pill.
  rewrite forallb_forall in H. now apply H.
Qed.

(** The use cases a returned card shows all print. *)
Lemma use_cases_shown_print (tool : value) :
  texts_print tool = true -> forallb prints (use_cases_shown tool) = true.
Proof.
  intros H. apply texts_print_true in H.
  destruct H as (_ & _ & _ & _ & _ & (l & Hl & Hp) & _).
  unfold use_cases_shown. now rewrite Hl.
Qed.

End CardEscaping.

(** C2, as the code has it. Every text [renderToolCard] takes from the tool
    ([icon], [name], [pricing_type], [description], [category] and each use
    case it shows) is printed and enters the returned markup as the
    [html_escape] of what it prints: with [&], [<], [>], the double quote
    and the apostrophe replaced by their entities, so that the inserted
    text is made of other code units and whole entities only. In
    particular, in a card for a tool named [<script>x</script>] the name
    reads [&lt;script&gt;x&lt;/script&gt;] and the card contains
    [&lt;script&gt;]; it contains [<script] nowhere provided that the
    [url], which goes in as it is, holds no [<]. *)
Theorem renderToolCard_escapes_text (tool : value) (html : jsstring) :
  renderToolCard tool = Ok html ->
  Forall (fun v => String_ v = Ok (printed v))
    ([or_else (prop tool "icon") (Str (lit "AI")); prop tool "name";
      or_else (prop tool "pricing_type") (Str []);
      or_else (prop tool "description") (Str []);
      or_else (prop tool "category") (Str [])] ++ use_cases_shown tool)
  /\ (exists href,
     html =
     card (html_escape (printed (or_else (prop tool "icon") (Str (lit "AI")))))
       href
       (html_escape (printed (prop tool "name")))
       (html_escape (printed (or_else (prop tool "pricing_type") (Str []))))
       (html_escape (printed (or_else (prop tool "description") (Str []))))
       (html_escape (printed (or_else (prop tool "category") (Str []))))
       (join []
          (map (fun t => pill_open ++ html_escape (printed t) ++ pill_close)
             (use_cases_shown tool)))
       (visit_text tool))
  /\ (forall s, escaped_text (html_escape s))
  /\ (prop tool "name" = Str (lit "<script>x</script>") ->
      name_text tool = lit "&lt;script&gt;x&lt;/script&gt;"
      /\ occurs (lit "&lt;script&gt;") html
      /\ (Forall (fun c => c <> u_lt) (visit_text tool) ->
          ~ occurs script_open html)).
Proof.
  intros Hret.
  destruct (renderToolCard_Ok _ _ Hret) as (encoded & (_ & Henc & Htexts) & ->).
  pose proof (use_cases_shown_print _ Htexts) as Hshown.
  split; [|split; [|split]].
  - apply texts_print_true in Htexts.
    destruct Htexts as (H1 & H2 & H3 & H4 & H5 & _ & _).
    cbn [app].
    repeat (apply List.Forall_cons; [now apply prints_String_|]).
    apply List.Forall_forall. intros t Ht. apply prints_String_.
    rewrite forallb_forall in Hshown. now apply Hshown.
  - exists (lit "/tools/" ++ encoded).
    unfold icon_text, name_text, pricing_text, description_text,
      category_text, pills_text.
    now rewrite !returned_escapeHTML, pill_html_escape.
  - apply html_escape_escaped.
  - intros Hname. split; [|split].
    + unfold name_text. now rewrite Hname.
    + unfold card, name_text. rewrite Hname.
      exists (card_open ++ icon_text tool ++ card_icon_to_href
              ++ (lit "/tools/" ++ encoded) ++ card_href_to_name).
      exists (lit "x&lt;/script&gt;" ++ card_name_to_pricing
              ++ pricing_text tool ++ card_pricing_to_description
              ++ description_text tool ++ card_description_to_category
              ++ category_text tool ++ card_category_to_pills
              ++ pills_text tool ++ card_pills_to_visit ++ visit_text tool
              ++ card_visit_to_details ++ (lit "/tools/" ++ encoded)
              ++ card_close).
      change (returned (escapeHTML (Str (lit "<script>x</script>"))))
        with (lit "&lt;script&gt;" ++ lit "x&lt;/script&gt;").
      now rewrite <- !app_assoc.
    + intros Hvisit Hocc. apply scan_complete in Hocc.
      rewrite scan_card in Hocc; [discriminate| |exact Hvisit].
      now apply encodeURIComponent_no_lt in Henc.
Qed.

(** The card of [script_tool]. *)
Lemma renderToolCard_escapes_text_witness :
  renderToolCard script_tool = Ok script_card
  /\ occurs (lit "&lt;script&gt;") script_card
  /\ ~ occurs script_open script_card.
Proof.
  assert (Hret : renderToolCard script_tool = Ok script_card)
    by (vm_compute; reflexivity).
  destruct (renderToolCard_escapes_text script_tool script_card Hret)
    as (_ & _ & _ & Hname).
  destruct Hname as (_ & Hin & Hout); [vm_compute; reflexivity|].
  split; [exact Hret|]. split; [exact Hin|].
  apply Hout. vm_compute. repeat constructor; discriminate.
Defined.

(** The name of [script_url_tool] is escaped like that of [script_tool],
    but its [url] is not: the card opens a script element inside what was to
    be the visit link. *)
Lemma raw_url_opens_script :
  prop script_url_tool "name" = Str (lit "<script>x</script>")
  /\ visit_text script_url_tool = tpl "'><script>alert(1)</script>"
  /\ exists html,
       renderToolCard script_url_tool = Ok html
       /\ occurs (lit "&lt;script&gt;") html
       /\ occurs script_open html.
Proof.
  split; [reflexivity|]. split; [reflexivity|].
  exists (card (lit "AI") (lit "/tools/x")
            (lit "&lt;script&gt;" ++ lit "x&lt;/script&gt;") [] [] [] []
            (tpl "'>" ++ script_open ++ lit ">alert(1)</script>")).
  split; [vm_compute; reflexivity|].
  unfold card. split.
  - do 5 apply occurs_app_r. apply occurs_app_l.
    exists [], (lit "x&lt;/script&gt;"). reflexivity.
  - do 15 apply occurs_app_r. apply occurs_app_l. apply occurs_middle.
Qed.

(** ** Absent fields (C7) *)

Section AbsentFields.

Lemma or_else_absent (v d : value) : absent v -> or_else v d = d.
Proof. now intros [-> | ->]. Qed.

End AbsentFields.

(** C7, as the code has it. In the card of a tool whose [description],
    [category] or [pricing_type] is absent (or [null]), that field is the
    empty string; an absent [icon] is the text [AI]. *)
Theorem renderToolCard_absent_fields (tool : value) (html : jsstring) :
  renderToolCard tool = Ok html ->
  (exists href,
     html = card (icon_text tool) href (name_text tool) (pricing_text tool)
              (description_text tool) (category_text tool)
              (pills_text tool) (visit_text tool))
  /\ (absent (prop tool "pricing_type") -> pricing_text tool = [])
  /\ (absent (prop tool "description") -> description_text tool = [])
  /\ (absent (prop tool "category") -> category_text tool = [])
  /\ (absent (prop tool "icon") -> icon_text tool = lit "AI").
Proof.
  intros Hret.
  destruct (renderToolCard_Ok _ _ Hret) as (encoded & _ & ->).
  split; [now exists (lit "/tools/" ++ encoded)|].
  unfold pricing_text, description_text, category_text, icon_text.
  repeat split; intros H; now rewrite (or_else_absent _ _ H).
Qed.

(** The card of [bare_tool], which has none of the optional fields. *)
Lemma renderToolCard_absent_fields_witness :
  renderToolCard bare_tool
  = Ok (card (lit "AI") (lit "/tools/x") (lit "X") [] [] [] []
          (lit "https://example.com/x"))
  /\ pricing_text bare_tool = []
  /\ description_text bare_tool = []
  /\ category_text bare_tool = []
  /\ icon_text bare_tool = lit "AI".
Proof.
  assert (Hret : renderToolCard bare_tool
                 = Ok (card (lit "AI") (lit "/tools/x") (lit "X") [] [] [] []
                         (lit "https://example.com/x")))
    by (vm_compute; reflexivity).
  destruct (renderToolCard_absent_fields bare_tool _ Hret)
    as (_ & Hp & Hd & Hc & Hi).
  split; [exact Hret|].
  split; [apply Hp; left; reflexivity|].
  split; [apply Hd; left; reflexivity|].
  split; [apply Hc; left; reflexivity|].
  apply Hi; left; reflexivity.
Defined.

(** Without [name] and [icon] the card reads [undefined] where the name
    goes and [AI] where the icon goes: neither is the empty string. *)
Lemma absent_name_and_icon_not_empty :
  prop nameless_tool "name" = Undefined
  /\ prop nameless_tool "icon" = Undefined
  /\ renderToolCard nameless_tool
     = Ok (card (lit "AI") (lit "/tools/x") (lit "undefined") [] [] [] []
             (lit "u"))
  /\ name_text nameless_tool = lit "undefined"
  /\ icon_text nameless_tool = lit "AI".
Proof. repeat split; vm_compute; reflexivity. Qed.

(** C10. The details link of a returned card (and the link on the name)
    points to [/tools/] followed by [encodeURIComponent] of the slug as it
    prints; the visit link's [href] is the tool's [url] as it prints, with
    no escaping or encoding (a [url] that is a string goes in as it is),
    and carries [target=_blank] and [rel=noopener noreferrer]. *)
Theorem renderToolCard_links (tool : value) (html : jsstring) :
  renderToolCard tool = Ok html ->
  exists slug encoded,
    String_ (prop tool "slug") = Ok slug
    /\ encodeURIComponent slug = Ok encoded
    /\ String_ (prop tool "url") = Ok (visit_text tool)
    /\ html = card (icon_text tool) (lit "/tools/" ++ encoded)
                (name_text tool) (pricing_text tool)
                (description_text tool) (category_text tool)
                (pills_text tool) (visit_text tool)
    /\ occurs (href_open ++ (lit "/tools/" ++ encoded) ++ details_rest) html
    /\ occurs (href_open ++ visit_text tool ++ visit_attributes) html
    /\ (forall u, prop tool "url" = Str u -> visit_text tool = u).
Proof.
  intros Hret.
  destruct (renderToolCard_Ok _ _ Hret)
    as (encoded & (Hslug & Henc & Htexts) & ->).
  exists (printed (prop tool "slug")), encoded.
  split; [now apply prints_String_|]. split; [exact Henc|].
  split.
  { apply prints_String_. now apply texts_print_true in Htexts. }
  split; [reflexivity|].
  split; [|split].
  - unfold card.
    do 16 apply occurs_app_r.
    change card_visit_to_details
      with (firstn (length card_visit_to_details - length href_open)
              card_visit_to_details ++ href_open).
    change card_close
      with (details_rest
            ++ skipn (length details_rest) card_close).
    rewrite <- !app_assoc. apply occurs_app_r.
    rewrite !app_assoc. apply occurs_app_l.
    rewrite <- !app_assoc. exists [], []. now rewrite app_nil_r.
  - unfold card.
    do 14 apply occurs_app_r.
    change card_pills_to_visit
      with (firstn (length card_pills_to_visit - length href_open)
              card_pills_to_visit ++ href_open).
    change card_visit_to_details
      with (visit_attributes
            ++ skipn (length visit_attributes) card_visit_to_details).
    rewrite <- !app_assoc. apply occurs_app_r.
    rewrite !app_assoc. do 4 apply occurs_app_l.
    rewrite <- !app_assoc. exists [], []. now rewrite app_nil_r.
  - intros u Hu. unfold visit_text. now rewrite Hu.
Qed.

(** The card of [quoted_tool]: the slug is encoded, the [url] is not. *)
Lemma renderToolCard_links_witness :
  exists html,
    renderToolCard quoted_tool = Ok html
    /\ occurs (href_open ++ lit "/tools/a%20b%2Fc" ++ details_rest) html
    /\ occurs (href_open ++ tpl "https://e.x/?a='1'&b=<2>" ++ visit_attributes)
         html.
Proof.
  assert (Hret : exists html, renderToolCard quoted_tool = Ok html)
    by (eexists; vm_compute; reflexivity).
  destruct Hret as [html Hret]. exists html. split; [exact Hret|].
  destruct (renderToolCard_links quoted_tool html Hret)
    as (slug & encoded & Hslug & Henc & _ & _ & Hdetails & Hvisit & _).
  assert (encoded = lit "a%20b%2Fc") as ->.
  { vm_compute in Hslug. injection Hslug as <-.
    vm_compute in Henc. injection Henc as <-. reflexivity. }
  split; [exact Hdetails|exact Hvisit].
Defined.

(** ** The event loop: what holds in every reachable state *)

Section EventLoop.

Lemma settle_cases (c : nat) (r : result value) (s : state) :
  settle c r s = hide_and_clear s
  \/ exists html, settle c r s = show_cards c html s.
Proof.
  unfold settle. destruct r as [data|e]; cbn [bind]; [|now left].
  unfold try_body.
  destruct (get data (lit "tools")) as [tools|e]; cbn [bind]; [|now left].
  destruct (no_length (or_else tools (Arr []))) as [[|]|e]; cbn [bind];
    [now left| |now left].
  destruct (slice_map (or_else tools (Arr [])) 5 renderToolCard) as [cards|e];
    cbn [bind]; [right; now eexists|now left].
Qed.

Lemma settle_Throw (c : nat) (e : exn) (s : state) :
  settle c (Throw e) s = hide_and_clear s.
Proof. reflexivity. Qed.

Lemma cleared_hide_and_clear (s : state) : cleared (hide_and_clear s).
Proof. now repeat split. Qed.

Lemma wf_hide_and_clear (s : state) : wf s -> wf (hide_and_clear s).
Proof. intros [H1 H2 H3 H4 H5 H6]. now constructor. Qed.

Lemma wf_show (c : nat) (html : jsstring) (s : state) : wf s -> wf (show_cards c html s).
Proof. intros [H1 H2 H3 H4 H5 H6]. now constructor. Qed.

Lemma wf_settle (c : nat) (r : result value) (s : state) :
  wf s -> wf (settle c r s).
Proof.
  intros H. destruct (settle_cases c r s) as [->|[html ->]].
  - now apply wf_hide_and_clear.
  - now apply wf_show.
Qed.

Lemma wf_set_inflight (l : list (nat * phase)) (s : state) :
  wf s ->
  (forall r, In r l -> exists r', In r' (inflight s) /\ fst r' = fst r) ->
  (length l <= length (inflight s))%nat ->
  wf (set_inflight l s).
Proof.
  intros [H1 H2 H3 H4 H5 H6] Hin Hlen. constructor; cbn; try assumption.
  - intros r Hr. destruct (Hin r Hr) as (r' & Hr' & <-). now apply H1.
  - lia.
Qed.

Lemma wf_without (c : nat) (s : state) : wf s -> wf (without c s).
Proof.
  intros H. apply wf_set_inflight; [exact H| |apply List.filter_length_le].
  intros r Hr. apply List.filter_In in Hr. exists r. now split.
Qed.

Lemma fold_abort_cleared (l : list (nat * phase)) (s : state) :
  hide_and_clear s = s ->
  fold_left (fun s' r => settle (fst r) (Throw AbortError) s') l s = s.
Proof.
  intros Hs. induction l as [|r l IH]; [reflexivity|].
  cbn [fold_left]. now rewrite settle_Throw, Hs.
Qed.

Lemma fold_abort (l : list (nat * phase)) (s : state) :
  fold_left (fun s' r => settle (fst r) (Throw AbortError) s') l s
  = match l with
    | [] => s
    | _ :: _ => hide_and_clear s
    end.
Proof.
  destruct l as [|r l]; [reflexivity|]. cbn [fold_left].
  rewrite settle_Throw. now apply fold_abort_cleared.
Qed.

Lemma filter_all {A} (f : A -> bool) (l : list A) :
  (forall x, In x l -> f x = true) -> List.filter f l = l.
Proof.
  induction l as [|x l IH]; intros H; [reflexivity|].
  cbn [List.filter]. rewrite (H x) by now left.
  f_equal. apply IH. intros y Hy. apply H. now right.
Qed.

Lemma filter_none {A} (f : A -> bool) (l : list A) :
  (forall x, In x l -> f x = false) -> List.filter f l = [].
Proof.
  induction l as [|x l IH]; intros H; [reflexivity|].
  cbn [List.filter]. rewrite (H x) by now left.
  apply IH. intros y Hy. apply H. now right.
Qed.

Lemma is_controller_last (s : state) (c : nat) (r : nat * phase) :
  wf s -> lastController s = Some c -> In r (inflight s) ->
  is_controller c r = true.
Proof.
  intros H Hc Hr. apply (wf_inflight s H) in Hr. rewrite Hc in Hr.
  injection Hr as ->. apply Nat.eqb_refl.
Qed.

(** [run] on a short task. *)
Lemma run_short (s : state) :
  (length (trim (input_value s)) < 3)%nat -> run s = hide_and_clear s.
Proof.
  intros H. unfold run. now rewrite (proj2 (Nat.ltb_lt _ _) H).
Qed.

(** [run] on a task of three code units or more, in a well-formed state:
    the request starts, and if one was pending its run resumes in the
    [catch]. *)
Lemma run_long (s : state) :
  wf s -> (3 <= length (trim (input_value s)))%nat ->
  run s = match inflight s with
          | [] => started s
          | _ :: _ => hide_and_clear (started s)
          end.
Proof.
  intros H Hlen. unfold run.
  rewrite (proj2 (Nat.ltb_ge _ _) Hlen).
  unfold started. destruct (lastController s) as [c|] eqn:Hc.
  - cbv [new_AbortController abort postJSON set_lastController set_calls
           set_inflight].
    cbn [input_value lastController debounce recs_hidden grid shown_by clock
           timers next_timer next_controller inflight calls].
    rewrite (filter_all (fun r => is_controller c r))
      by (intros r Hr; now apply (is_controller_last s)).
    rewrite filter_none
      by (intros r Hr; now rewrite (is_controller_last s c r)).
    rewrite fold_abort. now destruct (inflight s).
  - destruct (inflight s) as [|r l] eqn:Hl.
    + cbv [new_AbortController abort postJSON set_lastController set_calls
             set_inflight].
      cbn [input_value lastController debounce recs_hidden grid shown_by clock
             timers next_timer next_controller inflight calls fold_left].
      now rewrite Hl.
    + assert (Hr : In r (inflight s)) by (rewrite Hl; now left).
      apply (wf_inflight s H) in Hr. congruence.
Qed.

Lemma wf_started (s : state) : wf s -> wf (started s).
Proof.
  intros [H1 H2 H3 H4 H5 H6]. constructor; cbn; try assumption.
  - intros r [<-|[]]. reflexivity.
  - lia.
  - intros c [= <-]. lia.
Qed.

Lemma wf_run (s : state) : wf s -> wf (run s).
Proof.
  intros H. destruct (Nat.lt_ge_cases (length (trim (input_value s))) 3) as [Hs|Hl].
  - rewrite run_short by exact Hs. now apply wf_hide_and_clear.
  - rewrite run_long by assumption.
    destruct (inflight s); [|apply wf_hide_and_clear]; now apply wf_started.
Qed.

Lemma wf_on_input (text : jsstring) (s : state) :
  wf s ->
  wf (on_input text s)
  /\ timers (on_input text s) = [(next_timer s, (clock s + 450)%nat)].
Proof.
  intros H.
  assert (Hcleared :
    match debounce s with
    | Some t => List.filter (fun p => negb (Nat.eqb (fst p) t)) (timers s)
    | None => timers s
    end = []).
  { destruct (debounce s) as [t|] eqn:Ht.
    - apply filter_none. intros p Hp. apply (wf_timers s H) in Hp.
      rewrite Ht in Hp. injection Hp as ->. now rewrite Nat.eqb_refl.
    - destruct (timers s) as [|p l] eqn:Hl; [reflexivity|].
      assert (Hp : In p (timers s)) by (rewrite Hl; now left).
      apply (wf_timers s H) in Hp. congruence. }
  assert (Ht : timers (on_input text s) = [(next_timer s, (clock s + 450)%nat)]).
  { cbn. now rewrite Hcleared. }
  split; [|exact Ht].
  destruct H as [H1 H2 H3 H4 H5 H6]. constructor; try assumption.
  - rewrite Ht. intros p [<-|[]]. reflexivity.
  - rewrite Ht. cbn. lia.
  - rewrite Ht. intros p [<-|[]]. cbn. lia.
Qed.

Lemma wf_tick (ms : nat) (s : state) :
  wf s ->
  wf (tick ms (List.filter (fun p => negb (Nat.leb (snd p) (clock s + ms)))
                 (timers s)) s).
Proof.
  intros [H1 H2 H3 H4 H5 H6]. constructor; cbn; try assumption.
  - intros p Hp. apply List.filter_In in Hp. now apply H4.
  - etransitivity; [apply List.filter_length_le|exact H5].
  - intros p Hp. apply List.filter_In in Hp. destruct Hp as [_ Hp].
    apply negb_true_iff, Nat.leb_gt in Hp. exact Hp.
Qed.

Lemma elapse_eq (ms : nat) (s : state) :
  elapse ms s
  = fold_left (fun s' _ => run s')
      (List.filter (fun p => Nat.leb (snd p) (clock s + ms)) (timers s))
      (tick ms (List.filter (fun p => negb (Nat.leb (snd p) (clock s + ms)))
                  (timers s)) s).
Proof. reflexivity. Qed.

Lemma wf_fold_run {A} (l : list A) (s : state) :
  wf s -> wf (fold_left (fun s' _ => run s') l s).
Proof.
  revert s. induction l as [|x l IH]; intros s H; [exact H|].
  cbn [fold_left]. apply IH. now apply wf_run.
Qed.

Lemma wf_step (e : event) (s : state) : wf s -> wf (step e s).
Proof.
  intros H. destruct e as [text|ms|c status|c json|c]; cbn [step].
  - now apply wf_on_input.
  - rewrite elapse_eq. apply wf_fold_run. now apply wf_tick.
  - destruct (waiting c AwaitHeaders s); [|exact H].
    apply wf_set_inflight; [exact H| |now rewrite length_map].
    intros r Hr. apply in_map_iff in Hr. destruct Hr as (r' & <- & Hr').
    exists r'. split; [exact Hr'|].
    unfold is_controller. destruct (Nat.eqb_spec (fst r') c) as [->|_]; reflexivity.
  - destruct (waiting c AwaitBody s); [|exact H].
    apply wf_settle. now apply wf_without.
  - destruct (existsb (is_controller c) (inflight s)); [|exact H].
    apply wf_settle. now apply wf_without.
Qed.

Lemma wf_init (hidden : bool) (html value : jsstring) : wf (init hidden html value).
Proof.
  constructor; cbn; try lia; try (now intros ? []).
  intros c Hc. discriminate Hc.
Qed.

Lemma wf_reachable (s : state) : reachable s -> wf s.
Proof.
  induction 1 as [hidden html value|e s _ IH]; [apply wf_init|now apply wf_step].
Qed.

Lemma wf_run_events (evs : list event) (s : state) :
  wf s -> wf (run_events evs s).
Proof.
  revert s. induction evs as [|e evs IH]; intros s H; [exact H|].
  cbn [run_events fold_left]. apply IH. now apply wf_step.
Qed.

Lemma reachable_run_events (evs : list event) (s : state) :
  reachable s -> reachable (run_events evs s).
Proof.
  revert s. induction evs as [|e evs IH]; intros s H; [exact H|].
  cbn [run_events fold_left]. apply IH. now constructor.
Qed.

End EventLoop.

(** ** One request in flight (C4) *)

(** C4. In every reachable state at most one fetch is pending, and it is
    the one of [lastController]. When [run] issues a request, it aborts the
    previous controller first ([calls] is newest first) and only the new
    fetch is pending afterwards. *)
Theorem one_request_in_flight (s : state) :
  reachable s ->
  (length (inflight s) <= 1)%nat
  /\ (forall r, In r (inflight s) -> lastController s = Some (fst r))
  /\ ((3 <= length (trim (input_value s)))%nat ->
      calls (run s)
      = CallFetch (next_controller s) (trim (input_value s))
        :: match lastController s with
           | Some c => [CallAbort c]
           | None => []
           end ++ calls s
      /\ inflight (run s) = [(next_controller s, AwaitHeaders)]
      /\ lastController (run s) = Some (next_controller s)
      /\ forall c, lastController s = Some c -> c <> next_controller s).
Proof.
  intros Hreach. pose proof (wf_reachable s Hreach) as H.
  split; [apply (wf_one s H)|]. split; [apply (wf_inflight s H)|].
  intros Hlen. rewrite (run_long s H Hlen).
  assert (Hfresh : forall c, lastController s = Some c -> c <> next_controller s).
  { intros c Hc. apply (wf_fresh s H) in Hc. lia. }
  destruct (inflight s); repeat split; exact Hfresh.
Qed.

(** Starting the search for [abcd] while the one for [abc] is pending. *)
Lemma one_request_in_flight_witness :
  inflight one_pending = [(0%nat, AwaitHeaders)]
  /\ calls (run one_pending)
     = [CallFetch 1 (lit "abcd"); CallAbort 0; CallFetch 0 (lit "abc")]
  /\ inflight (run one_pending) = [(1%nat, AwaitHeaders)].
Proof.
  assert (Hreach : reachable one_pending)
    by (apply reachable_run_events, reachable_init).
  destruct (one_request_in_flight one_pending Hreach) as (_ & _ & Hrun).
  destruct Hrun as (Hcalls & Hin & _); [vm_compute; lia|].
  split; [reflexivity|]. split; [|exact Hin].
  rewrite Hcalls. reflexivity.
Defined.

(** ** Short input (C5) *)

(** C5. When the trimmed input is shorter than three code units, [run]
    makes no network call (no fetch, no abort, nothing new pending), hides
    the panel and empties the grid; that is all it does. *)
Theorem short_task_no_request (s : state) :
  (length (trim (input_value s)) < 3)%nat ->
  run s = hide_and_clear s
  /\ calls (run s) = calls s
  /\ fetched (run s) = fetched s
  /\ inflight (run s) = inflight s
  /\ lastController (run s) = lastController s
  /\ recs_hidden (run s) = true
  /\ grid (run s) = [].
Proof. intros H. rewrite (run_short s H). now repeat split. Qed.

(** [run] on [short_pending]: the earlier fetch is the only call. *)
Lemma short_task_no_request_witness :
  calls (run short_pending) = [CallFetch 0 (lit "abc")]
  /\ inflight (run short_pending) = [(0%nat, AwaitHeaders)]
  /\ recs_hidden (run short_pending) = true
  /\ grid (run short_pending) = [].
Proof.
  destruct (short_task_no_request short_pending) as (_ & Hc & _ & Hi & _ & Hh & Hg);
    [vm_compute; lia|].
  rewrite Hc, Hi. repeat split; assumption.
Defined.

(** A run on a short task aborts nothing: the request that was pending
    stays so, and its response is rendered when it comes. *)
Remark short_run_aborts_nothing :
  inflight (run short_pending) = [(0%nat, AwaitHeaders)]
  /\ shown_by (run_events [Headers 0 200; Body 0 (Some (response [bare_tool]))]
                 (run short_pending)) = Some 0%nat.
Proof. split; vm_compute; reflexivity. Qed.

(** ** A stale response is never rendered (C1) *)

Section Stale.

Lemma fresh_ui_hide_and_clear (b : nat) (s : state) :
  fresh_ui b s -> fresh_ui b (hide_and_clear s).
Proof.
  intros (l & Hl & Hb & _). exists l. repeat split; try assumption.
  left. apply cleared_hide_and_clear.
Qed.

Lemma fresh_ui_settle (b c : nat) (r : result value) (s : state) :
  fresh_ui b s -> lastController s = Some c -> fresh_ui b (settle c r s).
Proof.
  intros Hf Hc. destruct (settle_cases c r s) as [->|[html ->]].
  - now apply fresh_ui_hide_and_clear.
  - destruct Hf as (l & Hl & Hb & _). exists l. repeat split; try assumption.
    right. exists c. rewrite Hl in Hc. injection Hc as <-.
    repeat split; [assumption|apply Nat.le_refl].
Qed.

Lemma fresh_ui_started (b : nat) (s : state) :
  wf s -> fresh_ui b s -> fresh_ui b (started s).
Proof.
  intros H (l & Hl & Hb & Hui). apply (wf_fresh s H) in Hl.
  exists (next_controller s). split; [reflexivity|]. split; [lia|].
  destruct Hui as [Hc|(c & Hc & Hh & Hbc & Hcl)]; [now left|].
  right. exists c. repeat split; try assumption. lia.
Qed.

Lemma fresh_ui_run (b : nat) (s : state) :
  wf s -> fresh_ui b s -> fresh_ui b (run s).
Proof.
  intros H Hf.
  destruct (Nat.lt_ge_cases (length (trim (input_value s))) 3) as [Hs|Hl].
  - rewrite run_short by exact Hs. now apply fresh_ui_hide_and_clear.
  - rewrite run_long by assumption.
    destruct (inflight s); [|apply fresh_ui_hide_and_clear];
      now apply fresh_ui_started.
Qed.

Lemma fresh_ui_fold_run {A} (b : nat) (l : list A) (s : state) :
  wf s -> fresh_ui b s -> fresh_ui b (fold_left (fun s' _ => run s') l s).
Proof.
  revert s. induction l as [|x l IH]; intros s H Hf; [exact Hf|].
  cbn [fold_left]. apply IH; [now apply wf_run|now apply fresh_ui_run].
Qed.

Lemma waiting_last (c : nat) (p : phase) (s : state) :
  wf s -> waiting c p s = true -> lastController s = Some c.
Proof.
  intros H Hw. unfold waiting in Hw. apply existsb_exists in Hw.
  destruct Hw as (r & Hr & Hc). apply andb_true_iff in Hc.
  destruct Hc as [Hc _]. apply Nat.eqb_eq in Hc.
  rewrite <- Hc. now apply (wf_inflight s H).
Qed.

Lemma fresh_ui_step (b : nat) (e : event) (s : state) :
  wf s -> fresh_ui b s -> fresh_ui b (step e s).
Proof.
  intros H Hf. destruct e as [text|ms|c status|c json|c]; cbn [step].
  - exact Hf.
  - rewrite elapse_eq. apply fresh_ui_fold_run; [now apply wf_tick|exact Hf].
  - now destruct (waiting c AwaitHeaders s).
  - destruct (waiting c AwaitBody s) eqn:Hw; [|exact Hf].
    apply fresh_ui_settle; [exact Hf|].
    change (lastController s = Some c). now apply (waiting_last c AwaitBody).
  - destruct (existsb (is_controller c) (inflight s)); [|exact Hf].
    rewrite settle_Throw. now apply fresh_ui_hide_and_clear.
Qed.

Lemma fresh_ui_run_events (b : nat) (evs : list event) (s : state) :
  wf s -> fresh_ui b s -> fresh_ui b (run_events evs s).
Proof.
  revert s. induction evs as [|e evs IH]; intros s H Hf; [exact Hf|].
  cbn [run_events fold_left].
  apply IH; [now apply wf_step|now apply fresh_ui_step].
Qed.

End Stale.

(** C1. Let request [a] be pending when [run] starts a newer one, [b].
    Then [a]'s run resumes in its [catch] at once (the panel is hidden and
    the grid emptied), and whatever happens afterwards, in whatever order
    the responses arrive, the grid never holds cards written for [a]: it is
    empty and hidden, or holds the cards of [b] or of a search started
    after [b]; and as long as [b] is the latest search, only [b]'s. *)
Theorem stale_response_never_rendered (s : state) (a : nat) (evs : list event) :
  reachable s ->
  In a (map fst (inflight s)) ->
  (3 <= length (trim (input_value s)))%nat ->
  let b := next_controller s in
  let s' := run_events evs (run s) in
  (a < b)%nat
  /\ lastController (run s) = Some b
  /\ cleared (run s)
  /\ shown_by s' <> Some a
  /\ (cleared s'
      \/ exists c, shown_by s' = Some c /\ (b <= c)%nat
                   /\ recs_hidden s' = false)
  /\ (lastController s' = Some b ->
      cleared s' \/ (shown_by s' = Some b /\ recs_hidden s' = false)).
Proof.
  intros Hreach Ha Hlen b s'. pose proof (wf_reachable s Hreach) as H.
  apply in_map_iff in Ha. destruct Ha as (r & <- & Hr).
  assert (Hab : (fst r < b)%nat).
  { apply (wf_fresh s H). now apply (wf_inflight s H). }
  assert (Hrun : run s = hide_and_clear (started s)).
  { rewrite (run_long s H Hlen). destruct (inflight s); [destruct Hr|reflexivity]. }
  assert (Hf : fresh_ui b s').
  { apply fresh_ui_run_events; [now apply wf_run|].
    rewrite Hrun. exists b. repeat split; [apply Nat.le_refl|].
    left. apply cleared_hide_and_clear. }
  split; [exact Hab|]. split; [now rewrite Hrun|].
  split; [rewrite Hrun; apply cleared_hide_and_clear|].
  destruct Hf as (l & Hl & Hbl & Hui).
  split; [|split].
  - destruct Hui as [(_ & _ & Hn)|(c & Hc & _ & Hbc & _)].
    + rewrite Hn. discriminate.
    + rewrite Hc. intros [= ->]. lia.
  - destruct Hui as [Hc|(c & Hc & Hh & Hbc & _)]; [now left|].
    right. exists c. now repeat split.
  - intros Hb. rewrite Hl in Hb. injection Hb as ->.
    destruct Hui as [Hc|(c & Hc & Hh & Hbc & Hcl)]; [now left|].
    right. assert (c = b) as -> by lia. now split.
Qed.

(** After [late_reply] the grid holds the card of the newer request. *)
Lemma stale_response_never_rendered_witness :
  shown_by (run_events late_reply (run one_pending)) = Some 1%nat
  /\ grid (run_events late_reply (run one_pending)) = script_card
  /\ shown_by (run_events [Headers 0 200; Body 0 (Some (response [bare_tool]))]
                 (run one_pending)) <> Some 0%nat.
Proof.
  assert (Hreach : reachable one_pending)
    by (apply reachable_run_events, reachable_init).
  assert (Hin : In 0%nat (map fst (inflight one_pending))) by (now left).
  assert (Hlen : (3 <= length (trim (input_value one_pending)))%nat)
    by (vm_compute; lia).
  pose proof (stale_response_never_rendered one_pending 0 late_reply
                Hreach Hin Hlen) as (_ & _ & _ & _ & _ & Hlast).
  pose proof (stale_response_never_rendered one_pending 0
                [Headers 0 200; Body 0 (Some (response [bare_tool]))]
                Hreach Hin Hlen) as (_ & _ & _ & Hstale & _).
  split; [|split; [|exact Hstale]].
  - destruct Hlast as [(Hh & _)|[Hs _]]; [reflexivity| |exact Hs].
    vm_compute in Hh. discriminate Hh.
  - vm_compute. reflexivity.
Defined.

(** ** Failures (C6) *)

Section Failures.

Lemma pending_is_last (s : state) (c : nat) :
  wf s -> In c (map fst (inflight s)) ->
  lastController s = Some c
  /\ existsb (is_controller c) (inflight s) = true
  /\ inflight (without c s) = [].
Proof.
  intros H Hc. apply in_map_iff in Hc. destruct Hc as (r & <- & Hr).
  pose proof (wf_inflight s H r Hr) as Hlast.
  split; [exact Hlast|]. split.
  - apply existsb_exists. exists r. split; [exact Hr|apply Nat.eqb_refl].
  - cbn. apply filter_none. intros r' Hr'.
    now rewrite (is_controller_last s (fst r) r').
Qed.

Lemma waiting_pending (c : nat) (p : phase) (s : state) :
  waiting c p s = true -> In c (map fst (inflight s)).
Proof.
  intros Hw. apply existsb_exists in Hw. destruct Hw as (r & Hr & Hc).
  apply andb_true_iff in Hc. destruct Hc as [Hc _]. apply Nat.eqb_eq in Hc.
  apply in_map_iff. now exists r.
Qed.

(** What [run] does with a parsed response that holds tools. *)
Lemma settle_tools (c : nat) (data : value) (tools : list value) (s : state) :
  get data (lit "tools") = Ok (Arr tools) ->
  tools <> [] ->
  settle c (Ok data) s
  = match mapM renderToolCard (firstn 5 tools) with
    | Ok cards => show_cards c (join [] cards) s
    | Throw _ => hide_and_clear s
    end.
Proof.
  intros Hget Hne.
  unfold settle, try_body. cbn [bind]. rewrite Hget. cbn [bind].
  destruct tools as [|t tools]; [contradiction|].
  cbn [or_else truthy no_length length Nat.eqb bind slice_map].
  now destruct (mapM renderToolCard (firstn 5 (t :: tools))).
Qed.

(** ... and with one that holds none. *)
Lemma settle_no_tools (c : nat) (data tools : value) (s : state) :
  get data (lit "tools") = Ok tools ->
  tools = Arr [] \/ absent tools ->
  settle c (Ok data) s = hide_and_clear s.
Proof.
  intros Hget Htools. unfold settle, try_body. cbn [bind].
  rewrite Hget. cbn [bind].
  destruct Htools as [->|[->| ->]]; reflexivity.
Qed.

Lemma headers_keep_others (c : nat) (l : list (nat * phase)) :
  List.filter (fun r => negb (is_controller c r))
    (map (fun r => if is_controller c r then (c, AwaitBody) else r) l)
  = List.filter (fun r => negb (is_controller c r)) l.
Proof.
  induction l as [|r l IH]; [reflexivity|].
  cbn [map List.filter]. destruct (is_controller c r) eqn:Hr.
  - replace (is_controller c (c, AwaitBody)) with true
      by (symmetry; apply Nat.eqb_refl).
    exact IH.
  - rewrite Hr. cbn [negb]. now rewrite IH.
Qed.

Lemma headers_await_body (c : nat) (l : list (nat * phase)) :
  existsb (fun r => is_controller c r && phase_eqb (snd r) AwaitHeaders) l
  = true ->
  existsb (fun r => is_controller c r && phase_eqb (snd r) AwaitBody)
    (map (fun r => if is_controller c r then (c, AwaitBody) else r) l)
  = true.
Proof.
  intros H. apply existsb_exists in H. destruct H as (r & Hr & Hc).
  apply andb_true_iff in Hc. destruct Hc as [Hc _].
  apply existsb_exists. exists (c, AwaitBody). split.
  - apply in_map_iff. exists r. now rewrite Hc.
  - cbn [snd phase_eqb]. rewrite andb_true_r. apply Nat.eqb_refl.
Qed.

(** The body that follows the headers settles the request, whatever the
    status was. *)
Lemma headers_then_body
  (c status : nat) (json : option value) (s : state) :
  waiting c AwaitHeaders s = true ->
  step (Body c json) (step (Headers c status) s)
  = settle c (res_json json) (without c s).
Proof.
  intros Hw. cbn [step]. rewrite Hw.
  unfold waiting at 1. cbn [inflight set_inflight].
  rewrite (headers_await_body c (inflight s) Hw).
  unfold without. cbn [inflight set_inflight].
  now rewrite headers_keep_others.
Qed.

End Failures.

(** C6, as the code has it. Let request [c] be pending. A transport
    failure, a body that is no JSON, and the abort by a newer search each
    end in the same way: the panel is hidden, the grid emptied, and nothing
    else happens (no call is made for the failed request, nothing stays
    pending for it). The status of the response plays no part: the page
    goes on in the same way whatever it is. So a response with any status,
    2xx or not, ends hidden and emptied when its body is no JSON, when its
    [tools] is an empty array, absent or [null], and when one of its first
    five tools cannot be rendered; and it is rendered, with the panel
    shown, when its first five tools all render. *)
Theorem failures_hide_and_clear (s : state) (c : nat) :
  reachable s ->
  In c (map fst (inflight s)) ->
  (cleared (step (Failed c) s)
   /\ calls (step (Failed c) s) = calls s
   /\ inflight (step (Failed c) s) = [])
  /\ (waiting c AwaitBody s = true ->
      cleared (step (Body c None) s)
      /\ calls (step (Body c None) s) = calls s
      /\ inflight (step (Body c None) s) = [])
  /\ ((3 <= length (trim (input_value s)))%nat ->
      cleared (run s)
      /\ calls (run s)
         = CallFetch (next_controller s) (trim (input_value s))
           :: CallAbort c :: calls s
      /\ inflight (run s) = [(next_controller s, AwaitHeaders)])
  /\ (forall status status',
        step (Headers c status) s = step (Headers c status') s)
  /\ (waiting c AwaitHeaders s = true ->
      forall status,
        cleared (step (Body c None) (step (Headers c status) s))
        /\ (forall data tools,
              get data (lit "tools") = Ok tools ->
              tools = Arr [] \/ absent tools ->
              cleared (step (Body c (Some data)) (step (Headers c status) s)))
        /\ (forall data tools e,
              get data (lit "tools") = Ok (Arr tools) ->
              tools <> [] ->
              mapM renderToolCard (firstn 5 tools) = Throw e ->
              cleared (step (Body c (Some data)) (step (Headers c status) s)))
        /\ (forall data tools cards,
              get data (lit "tools") = Ok (Arr tools) ->
              tools <> [] ->
              mapM renderToolCard (firstn 5 tools) = Ok cards ->
              recs_hidden (step (Body c (Some data)) (step (Headers c status) s))
              = false
              /\ grid (step (Body c (Some data)) (step (Headers c status) s))
                 = join [] cards)).
Proof.
  intros Hreach Hc. pose proof (wf_reachable s Hreach) as H.
  destruct (pending_is_last s c H Hc) as (Hlast & Hex & Hnone).
  split; [|split; [|split; [|split]]].
  - cbn [step]. rewrite Hex, settle_Throw.
    split; [apply cleared_hide_and_clear|]. split; [reflexivity|exact Hnone].
  - intros Hw. cbn [step res_json]. rewrite Hw, settle_Throw.
    split; [apply cleared_hide_and_clear|]. split; [reflexivity|exact Hnone].
  - intros Hlen. rewrite (run_long s H Hlen).
    destruct (inflight s) as [|r l]; [destruct Hc|].
    split; [apply cleared_hide_and_clear|].
    cbn. rewrite Hlast. now split.
  - reflexivity.
  - intros Hw status. split; [|split; [|split]].
    + rewrite headers_then_body by exact Hw. cbn [res_json].
      rewrite settle_Throw. apply cleared_hide_and_clear.
    + intros data tools Hget Htools.
      rewrite headers_then_body by exact Hw. cbn [res_json].
      rewrite (settle_no_tools c data tools _ Hget Htools).
      apply cleared_hide_and_clear.
    + intros data tools e Hget Hne He.
      rewrite headers_then_body by exact Hw. cbn [res_json].
      rewrite (settle_tools c data tools _ Hget Hne), He.
      apply cleared_hide_and_clear.
    + intros data tools cards Hget Hne Hcards.
      rewrite headers_then_body by exact Hw. cbn [res_json].
      rewrite (settle_tools c data tools _ Hget Hne), Hcards.
      now split.
Qed.

(** The three failures on [body_pending]; and on [one_pending], whose
    request still waits for its headers, a response with status 500 that is
    rendered and one that is not. *)
Lemma failures_hide_and_clear_witness :
  cleared (step (Failed 0) body_pending)
  /\ cleared (step (Body 0 None) body_pending)
  /\ cleared (run body_pending)
  /\ calls (run body_pending)
     = [CallFetch 1 (lit "abcd"); CallAbort 0; CallFetch 0 (lit "abc")]
  /\ grid (step (Body 0 (Some (response [bare_tool])))
             (step (Headers 0 500) one_pending))
     = card (lit "AI") (lit "/tools/x") (lit "X") [] [] [] []
         (lit "https://example.com/x")
  /\ cleared (step (Body 0 (Some (response [bare_tool; unprintable_tool])))
                (step (Headers 0 500) one_pending)).
Proof.
  assert (Hreach : reachable body_pending)
    by (apply reachable_run_events, reachable_init).
  assert (Hin : In 0%nat (map fst (inflight body_pending))) by (now left).
  destruct (failures_hide_and_clear body_pending 0 Hreach Hin)
    as ((Hfail & _) & Hbody & Habort & _).
  destruct Hbody as (Hbody & _); [reflexivity|].
  destruct Habort as (Habort & Hcalls & _); [vm_compute; lia|].
  split; [exact Hfail|]. split; [exact Hbody|]. split; [exact Habort|].
  split; [rewrite Hcalls; reflexivity|].
  assert (Hreach' : reachable one_pending)
    by (apply reachable_run_events, reachable_init).
  assert (Hin' : In 0%nat (map fst (inflight one_pending))) by (now left).
  destruct (failures_hide_and_clear one_pending 0 Hreach' Hin')
    as (_ & _ & _ & _ & Hstatus).
  destruct (Hstatus eq_refl 500%nat) as (_ & _ & Hthrown & Hrendered).
  split.
  - destruct (Hrendered (response [bare_tool]) [bare_tool]
                [card (lit "AI") (lit "/tools/x") (lit "X") [] [] [] []
                   (lit "https://example.com/x")]) as [_ Hgrid];
      [reflexivity|discriminate|vm_compute; reflexivity|].
    rewrite Hgrid. reflexivity.
  - apply (Hthrown (response [bare_tool; unprintable_tool])
             [bare_tool; unprintable_tool] TypeError);
      [reflexivity|discriminate|vm_compute; reflexivity].
Defined.

(** A response with status 500 whose body is JSON with a tool in it is
    rendered, and the panel shown. *)
Lemma non_2xx_response_is_rendered :
  recs_hidden error_with_tools = false
  /\ grid error_with_tools
     = card (lit "AI") (lit "/tools/x") (lit "X") [] [] [] []
         (lit "https://example.com/x")
  /\ grid error_with_tools <> []
  /\ ~ cleared error_with_tools.
Proof.
  split; [reflexivity|]. split; [vm_compute; reflexivity|].
  split; [vm_compute; discriminate|].
  intros (Hh & _). vm_compute in Hh. discriminate Hh.
Qed.

(** ** No tools (C9) *)

(** C9. When the parsed response has an empty [tools] array, or no [tools]
    at all, or [tools: null], the [try] block ends normally, by its early
    return (nothing is thrown), with the panel hidden and the grid empty. *)
Theorem empty_tools_hide (c : nat) (data tools : value) (s : state) :
  get data (lit "tools") = Ok tools ->
  tools = Arr [] \/ absent tools ->
  try_body c data s = Ok (hide_and_clear s)
  /\ settle c (Ok data) s = hide_and_clear s
  /\ cleared (settle c (Ok data) s)
  /\ (waiting c AwaitBody s = true ->
      step (Body c (Some data)) s = hide_and_clear (without c s)).
Proof.
  intros Hget Htools.
  assert (Hbody : forall s0, try_body c data s0 = Ok (hide_and_clear s0)).
  { intros s0. unfold try_body. rewrite Hget. cbn [bind].
    destruct Htools as [->|[->| ->]]; reflexivity. }
  assert (Hsettle : forall s0, settle c (Ok data) s0 = hide_and_clear s0).
  { intros s0. unfold settle. cbn [bind]. now rewrite Hbody. }
  split; [apply Hbody|]. split; [apply Hsettle|].
  split; [rewrite Hsettle; apply cleared_hide_and_clear|].
  intros Hw. cbn [step]. rewrite Hw. apply Hsettle.
Qed.

(** [tools: []], no [tools], and [tools: null]. *)
Lemma empty_tools_hide_witness :
  try_body 0 (response []) error_with_tools
  = Ok (hide_and_clear error_with_tools)
  /\ try_body 0 (object []) error_with_tools
     = Ok (hide_and_clear error_with_tools)
  /\ try_body 0 (object [("tools"%string, Null)]) error_with_tools
     = Ok (hide_and_clear error_with_tools).
Proof.
  split; [|split].
  - apply (empty_tools_hide 0 (response []) (Arr [])); [reflexivity|now left].
  - apply (empty_tools_hide 0 (object []) Undefined);
      [reflexivity|right; now left].
  - apply (empty_tools_hide 0 (object [("tools"%string, Null)]) Null);
      [reflexivity|right; now right].
Defined.

(** ** The first five tools (C8) *)

Section FirstFive.

Lemma mapM_Forall2 {A B} (f : A -> result B) (l : list A) (l' : list B) :
  mapM f l = Ok l' -> Forall2 (fun a b => f a = Ok b) l l'.
Proof.
  revert l'. induction l as [|a l IH]; intros l' H.
  - injection H as <-. constructor.
  - cbn [mapM] in H. destruct (f a) as [b|e] eqn:Hb; [|discriminate].
    cbn [bind] in H. destruct (mapM f l) as [bs|e]; [|discriminate].
    injection H as <-. constructor; [exact Hb|now apply IH].
Qed.

Lemma use_cases_shown_length (tool : value) :
  length (use_cases_shown tool)
  = Nat.min 3 (length (elements (or_else (prop tool "use_cases") (Arr [])))).
Proof. apply length_firstn. Qed.

End FirstFive.

(** C8, as the code has it. Let the parsed response hold a non-empty
    [tools] array. If each of its first five tools renders, the grid gets
    exactly those cards, min(5, length) of them, in the order of the
    response, and the panel is shown; each card has pills for the first
    three use cases at most, one for each. If rendering one of them throws
    (see [renderToolCard_eq] for when it does), no card is rendered: the
    [catch] hides the panel and empties the grid. *)
Theorem first_five_tools_rendered
  (c : nat) (data : value) (tools : list value) (s : state) :
  get data (lit "tools") = Ok (Arr tools) ->
  tools <> [] ->
  (forall cards,
     mapM renderToolCard (firstn 5 tools) = Ok cards ->
     settle c (Ok data) s = show_cards c (join [] cards) s
     /\ grid (settle c (Ok data) s) = join [] cards
     /\ recs_hidden (settle c (Ok data) s) = false
     /\ length cards = Nat.min 5 (length tools)
     /\ Forall2
          (fun tool markup =>
             renderToolCard tool = Ok markup
             /\ (exists href,
                   markup = card (icon_text tool) href (name_text tool)
                              (pricing_text tool) (description_text tool)
                              (category_text tool)
                              (join []
                                 (map (fun t =>
                                         pill_open
                                         ++ html_escape (printed t)
                                         ++ pill_close)
                                    (use_cases_shown tool)))
                              (visit_text tool))
             /\ length (use_cases_shown tool)
                = Nat.min 3
                    (length (elements
                               (or_else (prop tool "use_cases") (Arr [])))))
          (firstn 5 tools) cards)
  /\ (forall e,
        mapM renderToolCard (firstn 5 tools) = Throw e ->
        settle c (Ok data) s = hide_and_clear s).
Proof.
  intros Hget Hne.
  pose proof (settle_tools c data tools s Hget Hne) as Hsettle.
  split.
  - intros cards Hcards. rewrite Hsettle, Hcards.
    split; [reflexivity|]. split; [reflexivity|]. split; [reflexivity|].
    apply mapM_Forall2 in Hcards. split.
    + pose proof Hcards as Hlen. apply Forall2_length in Hlen.
      rewrite <- Hlen. apply length_firstn.
    + eapply Forall2_impl; [exact Hcards|].
      intros tool markup Hm. split; [exact Hm|].
      split; [|apply use_cases_shown_length].
      destruct (renderToolCard_Ok _ _ Hm)
        as (encoded & (_ & _ & Htexts) & ->).
      exists (lit "/tools/" ++ encoded). unfold pills_text.
      now rewrite (pill_html_escape _ (use_cases_shown_print _ Htexts)).
  - intros e He. now rewrite Hsettle, He.
Qed.

(** Seven tools give five cards, those of the first five. *)
Lemma first_five_tools_rendered_witness :
  grid (settle 0 (Ok (response seven_tools)) (init true [] []))
  = join [] five_cards
  /\ length five_cards = 5%nat
  /\ Forall2 (fun tool markup => renderToolCard tool = Ok markup)
       (map tool_named ["t1"; "t2"; "t3"; "t4"; "t5"]%string) five_cards.
Proof.
  assert (Hget : get (response seven_tools) (lit "tools") = Ok (Arr seven_tools))
    by reflexivity.
  assert (Hne : seven_tools <> []) by discriminate.
  destruct (first_five_tools_rendered 0 (response seven_tools) seven_tools
              (init true [] []) Hget Hne) as [Hok _].
  destruct (Hok five_cards) as (_ & Hgrid & _ & Hlen & Hall);
    [vm_compute; reflexivity|].
  split; [exact Hgrid|]. split; [exact Hlen|].
  eapply Forall2_impl; [exact Hall|]. now intros tool markup (Hm & _).
Defined.

(** A response whose only tool has a lone surrogate for its slug renders no
    card: [encodeURIComponent] throws, and the [catch] hides the panel and
    empties the grid. A [null] among the first five does the same. *)
Lemma unrenderable_tool_clears_grid :
  get (response [unpaired_tool]) (lit "tools") = Ok (Arr [unpaired_tool])
  /\ renderToolCard unpaired_tool = Throw URIError
  /\ recs_hidden unpaired_reply = true
  /\ grid unpaired_reply = []
  /\ settle 0 (Ok (response [Null; bare_tool])) (init false (lit "<old>") [])
     = hide_and_clear (init false (lit "<old>") []).
Proof. repeat split; vm_compute; reflexivity. Qed.

(** A tool whose name is an object with a [toString] of its own cannot be
    printed: the template throws a TypeError, and again no card is
    rendered. The same holds for such an object among the shown use cases,
    also inside an array. *)
Lemma unprintable_tool_clears_grid :
  renderToolCard unprintable_tool = Throw TypeError
  /\ renderToolCard
       (object [("slug", Str (lit "x")); ("name", Str (lit "X"));
                ("url", Str (lit "u"));
                ("use_cases", Arr [Arr [own_toString]])]%string)
     = Throw TypeError
  /\ settle 0 (Ok (response [bare_tool; unprintable_tool]))
       (init false (lit "<old>") [])
     = hide_and_clear (init false (lit "<old>") []).
Proof. repeat split; vm_compute; reflexivity. Qed.

(** ** Debouncing (C3) *)

Section Debounce.

Lemma settle_frame (c : nat) (r : result value) (s : state) :
  timers (settle c r s) = timers s
  /\ clock (settle c r s) = clock s
  /\ input_value (settle c r s) = input_value s
  /\ calls (settle c r s) = calls s
  /\ next_controller (settle c r s) = next_controller s.
Proof.
  destruct (settle_cases c r s) as [->|[html ->]]; now repeat split.
Qed.

Lemma response_frame (e : event) (s : state) :
  match e with
  | Input _ | Elapse _ => False
  | _ => True
  end ->
  timers (step e s) = timers s
  /\ clock (step e s) = clock s
  /\ input_value (step e s) = input_value s
  /\ calls (step e s) = calls s
  /\ next_controller (step e s) = next_controller s.
Proof.
  destruct e as [text|ms|c status|c json|c]; intros He; try contradiction;
    cbn [step].
  - now destruct (waiting c AwaitHeaders s).
  - destruct (waiting c AwaitBody s); [|now repeat split].
    exact (settle_frame c _ (without c s)).
  - destruct (existsb (is_controller c) (inflight s)); [|now repeat split].
    exact (settle_frame c _ (without c s)).
Qed.

Lemma elapse_idle (ms t due : nat) (s : state) :
  timers s = [(t, due)] -> (clock s + ms < due)%nat ->
  elapse ms s = tick ms [(t, due)] s.
Proof.
  intros Ht Hdue. rewrite elapse_eq, Ht. cbn [List.filter snd].
  now rewrite (proj2 (Nat.leb_gt _ _) Hdue).
Qed.

Lemma elapse_fire (ms t due : nat) (s : state) :
  timers s = [(t, due)] -> (due <= clock s + ms)%nat ->
  elapse ms s = run (tick ms [] s).
Proof.
  intros Ht Hdue. rewrite elapse_eq, Ht. cbn [List.filter snd].
  now rewrite (proj2 (Nat.leb_le _ _) Hdue).
Qed.

Lemma wf_tick_nil (ms : nat) (s : state) : wf s -> wf (tick ms [] s).
Proof.
  intros [H1 H2 H3 H4 H5 H6]. constructor; cbn; try assumption;
    try (now intros ? []). lia.
Qed.

Lemma fetched_run (s : state) :
  wf s ->
  fetched (run s)
  = (if Nat.leb 3 (length (trim (input_value s)))
     then [(next_controller s, trim (input_value s))]
     else []) ++ fetched s.
Proof.
  intros H.
  destruct (Nat.lt_ge_cases (length (trim (input_value s))) 3) as [Hs|Hl].
  - rewrite run_short by exact Hs.
    now rewrite (proj2 (Nat.leb_gt _ _) Hs).
  - rewrite run_long by assumption. rewrite (proj2 (Nat.leb_le _ _) Hl).
    assert (Hst : fetched (started s)
                  = (next_controller s, trim (input_value s)) :: fetched s).
    { unfold fetched, started. cbn [calls flat_map app].
      rewrite flat_map_app. now destruct (lastController s). }
    now destruct (inflight s).
Qed.

(** Through a burst the timer of the last input stays pending and nothing
    is fetched. *)
Lemma burst_keeps_armed (evs : list event) :
  forall (s : state) (idle : nat),
    wf s -> (idle < 450)%nat -> armed (clock s + (450 - idle)) s ->
    rapid idle evs = true ->
    exists idle',
      (idle' < 450)%nat
      /\ armed (clock (run_events evs s) + (450 - idle')) (run_events evs s)
      /\ input_value (run_events evs s) = final_text (input_value s) evs
      /\ calls (run_events evs s) = calls s
      /\ next_controller (run_events evs s) = next_controller s.
Proof.
  induction evs as [|e evs IH]; intros s idle H Hidle Harmed Hrapid.
  - exists idle. now repeat split.
  - cbn [run_events fold_left].
    change (fold_left (fun s' e0 => step e0 s') evs (step e s))
      with (run_events evs (step e s)).
    pose proof (wf_step e s H) as H'.
    destruct e as [text|ms|c status|c json|c].
    + cbn [rapid final_text] in *.
      destruct (wf_on_input text s H) as [_ Ht].
      destruct (IH (step (Input text) s) 0%nat H') as (idle' & Hi & Ha & Hv & Hc & Hn);
        [lia|exists (next_timer s); exact Ht|exact Hrapid|].
      exists idle'. now repeat split.
    + cbn [rapid final_text] in *. apply andb_true_iff in Hrapid.
      destruct Hrapid as [Hlt Hrapid]. apply Nat.ltb_lt in Hlt.
      destruct Harmed as [t Ht].
      assert (Hstep : step (Elapse ms) s
                      = tick ms [(t, (clock s + (450 - idle))%nat)] s).
      { cbn [step]. apply elapse_idle; [exact Ht|lia]. }
      rewrite Hstep in *.
      destruct (IH _ (idle + ms)%nat H') as (idle' & Hi & Ha & Hv & Hc & Hn);
        [exact Hlt| |exact Hrapid|].
      { exists t. cbn [timers tick clock]. do 2 f_equal. lia. }
      exists idle'. now repeat split.
    + destruct (response_frame (Headers c status) s I) as (Ft & Fc & Fv & Fk & Fn).
      destruct (IH _ idle H') as (idle' & Hi & Ha & Hv & Hc & Hn);
        [exact Hidle|destruct Harmed as [t Ht]; exists t; now rewrite Ft, Fc
        |exact Hrapid|].
      exists idle'. rewrite Hv, Hc, Hn, Fv, Fk, Fn. now repeat split.
    + destruct (response_frame (Body c json) s I) as (Ft & Fc & Fv & Fk & Fn).
      destruct (IH _ idle H') as (idle' & Hi & Ha & Hv & Hc & Hn);
        [exact Hidle|destruct Harmed as [t Ht]; exists t; now rewrite Ft, Fc
        |exact Hrapid|].
      exists idle'. rewrite Hv, Hc, Hn, Fv, Fk, Fn. now repeat split.
    + destruct (response_frame (Failed c) s I) as (Ft & Fc & Fv & Fk & Fn).
      destruct (IH _ idle H') as (idle' & Hi & Ha & Hv & Hc & Hn);
        [exact Hidle|destruct Harmed as [t Ht]; exists t; now rewrite Ft, Fc
        |exact Hrapid|].
      exists idle'. rewrite Hv, Hc, Hn, Fv, Fk, Fn. now repeat split.
Qed.

Lemma run_events_app (evs evs' : list event) (s : state) :
  run_events (evs ++ evs') s = run_events evs' (run_events evs s).
Proof. apply fold_left_app. Qed.

End Debounce.

(** C3, as the code has it. Every input event leaves exactly one timer
    pending, the one it has just set, due 450ms later: the timer of the
    input before it is cancelled. So after a burst of inputs less than
    450ms apart, once 450ms pass without input, [run] is called once, with
    the text of the last input: one request goes out, carrying that text
    trimmed, if the trimmed text has three code units or more, and none
    otherwise. *)
Theorem debounce_issues_one_request
  (s : state) (text : jsstring) (rest : list event) (ms : nat) :
  reachable s ->
  rapid 0 rest = true ->
  (450 <= ms)%nat ->
  let task := trim (final_text text rest) in
  let s' := run_events (Input text :: rest ++ [Elapse ms]) s in
  fetched s'
  = (if Nat.leb 3 (length task) then [(next_controller s, task)] else [])
    ++ fetched s
  /\ timers s' = []
  /\ timers (step (Input text) s) = [(next_timer s, (clock s + 450)%nat)]
  /\ debounce (step (Input text) s) = Some (next_timer s).
Proof.
  intros Hreach Hrapid Hms task s'. pose proof (wf_reachable s Hreach) as H.
  destruct (wf_on_input text s H) as [H1 Ht].
  split; [|split; [|split; [exact Ht|reflexivity]]].
  - subst s' task. cbn [run_events fold_left].
    change (fold_left (fun s' e0 => step e0 s') (rest ++ [Elapse ms])
              (step (Input text) s))
      with (run_events (rest ++ [Elapse ms]) (step (Input text) s)).
    rewrite run_events_app.
    destruct (burst_keeps_armed rest (step (Input text) s) 0 H1)
      as (idle & Hi & [t Ha] & Hv & Hc & Hn);
      [lia|exists (next_timer s); exact Ht|exact Hrapid|].
    set (s1 := run_events rest (step (Input text) s)) in *.
    assert (H1' : wf s1) by now apply wf_run_events.
    cbn [run_events fold_left step].
    rewrite (elapse_fire ms t _ s1 Ha) by lia.
    rewrite fetched_run by now apply wf_tick_nil.
    cbn [tick input_value next_controller]. rewrite Hv, Hn.
    unfold fetched at 1. cbn [tick calls]. now rewrite Hc.
  - subst s'. cbn [run_events fold_left].
    change (fold_left (fun s' e0 => step e0 s') (rest ++ [Elapse ms])
              (step (Input text) s))
      with (run_events (rest ++ [Elapse ms]) (step (Input text) s)).
    rewrite run_events_app.
    destruct (burst_keeps_armed rest (step (Input text) s) 0 H1)
      as (idle & Hi & [t Ha] & Hv & Hc & Hn);
      [lia|exists (next_timer s); exact Ht|exact Hrapid|].
    set (s1 := run_events rest (step (Input text) s)) in *.
    cbn [run_events fold_left step].
    rewrite (elapse_fire ms t _ s1 Ha) by lia.
    assert (Hrun : forall s0, timers (run s0) = timers s0).
    { intros s0. unfold run.
      destruct (Nat.ltb (length (trim (input_value s0))) 3); [reflexivity|].
      cbv [new_AbortController]. rewrite fold_abort.
      now destruct (lastController s0) as [c|];
        [destruct (List.filter (fun r => is_controller c r) (inflight s0))|]. }
    now rewrite Hrun.
Qed.

(** Typing [abc], [abcd] and at last [ abcde ] in quick succession, while
    the page is fresh. *)
Lemma debounce_issues_one_request_witness :
  fetched (run_events
             (Input (lit "abc")
              :: [Elapse 200; Input (lit "abcd"); Elapse 449;
                  Input (lit " abcde ")] ++ [Elapse 450])
             (init true [] []))
  = [(0%nat, lit "abcde")].
Proof.
  destruct (debounce_issues_one_request (init true [] []) (lit "abc")
              [Elapse 200; Input (lit "abcd"); Elapse 449;
               Input (lit " abcde ")] 450
              (reachable_init true [] []) eq_refl (Nat.le_refl 450))
    as (Hfetched & _).
  rewrite Hfetched. reflexivity.
Defined.

(** A burst that ends on [ab]: no request at all goes out. *)
Lemma short_burst_issues_no_request :
  rapid 0 [Elapse 100; Input (lit "ab")] = true
  /\ fetched (run_events
                (Input (lit "a") :: [Elapse 100; Input (lit "ab")]
                 ++ [Elapse 450])
                (init true [] []))
     = []
  /\ length (fetched (run_events
                (Input (lit "a") :: [Elapse 100; Input (lit "ab")]
                 ++ [Elapse 450])
                (init true [] []))) <> 1%nat.
Proof. repeat split. vm_compute. discriminate. Qed.


(** * Further properties *)

(** ** [escapeHTML] as a code *)

Section EscapeCode.

Lemma escape_unit_app_inj (c d : N) (a b : jsstring) :
  escape_unit c ++ a = escape_unit d ++ b -> c = d /\ a = b.
Proof.
  unfold escape_unit.
  destruct (N.eqb_spec c u_amp) as [->|Hc1];
    [|destruct (N.eqb_spec c u_lt) as [->|Hc2];
      [|destruct (N.eqb_spec c u_gt) as [->|Hc3];
        [|destruct (N.eqb_spec c u_quot) as [->|Hc4];
          [|destruct (N.eqb_spec c u_apos) as [->|Hc5]]]]];
  (destruct (N.eqb_spec d u_amp) as [->|Hd1];
    [|destruct (N.eqb_spec d u_lt) as [->|Hd2];
      [|destruct (N.eqb_spec d u_gt) as [->|Hd3];
        [|destruct (N.eqb_spec d u_quot) as [->|Hd4];
          [|destruct (N.eqb_spec d u_apos) as [->|Hd5]]]]]);
  cbn; intros H; try discriminate H;
  try (injection H as H; subst; try contradiction; now split).
Qed.

Lemma html_escape_inj (a b : jsstring) :
  html_escape a = html_escape b -> a = b.
Proof.
  revert b. induction a as [|c a IH]; intros [|d b] H.
  - reflexivity.
  - change (html_escape (d :: b)) with (escape_unit d ++ html_escape b) in H.
    destruct (escape_unit_cases d) as [[_ Hd]|[_ Hd]].
    + rewrite Hd in H. discriminate H.
    + simpl in Hd. cbn [html_escape flat_map] in H.
      destruct Hd as [Hd|[Hd|[Hd|[Hd|[Hd|[]]]]]]; rewrite <- Hd in H;
        discriminate H.
  - change (html_escape (c :: a)) with (escape_unit c ++ html_escape a) in H.
    destruct (escape_unit_cases c) as [[_ Hc]|[_ Hc]].
    + rewrite Hc in H. discriminate H.
    + simpl in Hc. cbn [html_escape flat_map] in H.
      destruct Hc as [Hc|[Hc|[Hc|[Hc|[Hc|[]]]]]]; rewrite <- Hc in H;
        discriminate H.
  - change (escape_unit c ++ html_escape a = escape_unit d ++ html_escape b) in H.
    apply escape_unit_app_inj in H. destruct H as [-> H].
    f_equal. now apply IH.
Qed.

Lemma escape_unit_length (c : N) :
  (1 <= length (escape_unit c))%nat
  /\ (length (escape_unit c) = 1%nat -> is_special c = false).
Proof.
  unfold escape_unit, is_special.
  destruct (c =? u_amp); [cbn; split; [lia|discriminate]|].
  destruct (c =? u_lt); [cbn; split; [lia|discriminate]|].
  destruct (c =? u_gt); [cbn; split; [lia|discriminate]|].
  destruct (c =? u_quot); [cbn; split; [lia|discriminate]|].
  destruct (c =? u_apos); [cbn; split; [lia|discriminate]|].
  cbn. split; [lia|reflexivity].
Qed.

Lemma html_escape_length (s : jsstring) :
  (length s <= length (html_escape s))%nat.
Proof.
  induction s as [|c s IH]; [reflexivity|].
  change (html_escape (c :: s)) with (escape_unit c ++ html_escape s).
  rewrite length_app. cbn [length].
  destruct (escape_unit_length c) as [H _]. lia.
Qed.

Lemma html_escape_plain (s : jsstring) :
  forallb (fun c => negb (is_special c)) s = true -> html_escape s = s.
Proof.
  induction s as [|c s IH]; [reflexivity|].
  cbn [forallb]. intros H. apply andb_true_iff in H. destruct H as [Hc Hs].
  change (html_escape (c :: s)) with (escape_unit c ++ html_escape s).
  rewrite (IH Hs). apply negb_true_iff in Hc.
  destruct (escape_unit_cases c) as [[_ ->]|[Hsp _]]; [reflexivity|congruence].
Qed.

Lemma html_escape_same_length (s : jsstring) :
  length (html_escape s) = length s ->
  forallb (fun c => negb (is_special c)) s = true.
Proof.
  induction s as [|c s IH]; [reflexivity|].
  change (html_escape (c :: s)) with (escape_unit c ++ html_escape s).
  rewrite length_app. cbn [length forallb]. intros H.
  destruct (escape_unit_length c) as [H1 H2].
  pose proof (html_escape_length s) as H3.
  rewrite H2 by lia. cbn [negb andb]. apply IH. lia.
Qed.

End EscapeCode.

(** X1. [escapeHTML] loses nothing: two strings with the same escaped text
    are the same string (and so are the printed forms of two values). *)
Theorem escapeHTML_injective (v w : value) :
  escapeHTML v = escapeHTML w -> String_ v = String_ w.
Proof.
  rewrite !escapeHTML_html_escape.
  destruct (String_ v) as [a|e], (String_ w) as [b|e']; cbn [bind];
    intros H; try discriminate H.
  - injection H as H. f_equal. now apply html_escape_inj.
  - exact H.
Qed.

(** The number 1 and the string [1] print alike, and so escape alike. *)
Lemma escapeHTML_injective_witness :
  String_ (Num (lit "1")) = String_ (Str (lit "1")).
Proof.
  apply (escapeHTML_injective (Num (lit "1")) (Str (lit "1"))). reflexivity.
Defined.

(** X2. [escapeHTML] returns for every string; it never shortens a string,
    and it leaves a string as it is exactly when the string holds none of
    the five characters. *)
Theorem escapeHTML_unchanged_iff (s : jsstring) :
  exists text,
    escapeHTML (Str s) = Ok text
    /\ (length s <= length text)%nat
    /\ (text = s <-> forallb (fun c => negb (is_special c)) s = true).
Proof.
  exists (html_escape s). split; [apply escapeHTML_Str|].
  split; [apply html_escape_length|]. split.
  - intros H. apply html_escape_same_length. now rewrite H.
  - apply html_escape_plain.
Qed.

(** X3. Escaping the parts of a string and joining them is escaping the
    whole: no entity arises or breaks where two parts meet. *)
Theorem escapeHTML_app (a b : jsstring) :
  exists x y,
    escapeHTML (Str a) = Ok x
    /\ escapeHTML (Str b) = Ok y
    /\ escapeHTML (Str (a ++ b)) = Ok (x ++ y).
Proof.
  exists (html_escape a), (html_escape b).
  rewrite !escapeHTML_Str. now rewrite html_escape_app.
Qed.

(** ** When [renderToolCard] throws, and what the slug can do *)

Section Throws.

Lemma unreserved_no_surrogate (c : N) :
  is_unreserved c = true ->
  is_low_surrogate c = false /\ is_high_surrogate c = false.
Proof.
  unfold is_unreserved, is_alnum, is_low_surrogate, is_high_surrogate.
  rewrite !orb_true_iff, !andb_true_iff, !N.eqb_eq, !N.leb_le.
  intros H. split; apply andb_false_iff; left; apply N.leb_gt; lia.
Qed.

Lemma encodeURIComponent_isWellFormed_bounded (n : nat) :
  forall s, (length s <= n)%nat ->
    (isWellFormed s = true -> exists r, encodeURIComponent s = Ok r)
    /\ (isWellFormed s = false -> encodeURIComponent s = Throw URIError).
Proof.
  induction n as [|n IH]; intros s Hlen.
  - destruct s; [|simpl in Hlen; lia]. split; [now exists []|discriminate].
  - destruct s as [|c s]; [split; [now exists []|discriminate]|].
    cbn [length] in Hlen. cbn [isWellFormed encodeURIComponent].
    destruct (is_unreserved c) eqn:Hu.
    + destruct (unreserved_no_surrogate c Hu) as [-> ->].
      destruct (IH s ltac:(lia)) as [Hok Hbad].
      split; intros Hw.
      * destruct (Hok Hw) as [r ->]. now eexists.
      * now rewrite (Hbad Hw).
    + destruct (is_low_surrogate c); [split; [discriminate|reflexivity]|].
      destruct (is_high_surrogate c).
      * destruct s as [|d s]; [split; [discriminate|reflexivity]|].
        destruct (is_low_surrogate d); [|split; [discriminate|reflexivity]].
        cbn [andb]. cbn [length] in Hlen.
        destruct (IH s ltac:(lia)) as [Hok Hbad].
        split; intros Hw.
        -- destruct (Hok Hw) as [r ->]. now eexists.
        -- now rewrite (Hbad Hw).
      * destruct (IH s ltac:(lia)) as [Hok Hbad].
        split; intros Hw.
        -- destruct (Hok Hw) as [r ->]. now eexists.
        -- now rewrite (Hbad Hw).
Qed.

(** [encodeURIComponent] returns for the well-formed strings and throws a
    URIError for the others. *)
Lemma encodeURIComponent_isWellFormed (s : jsstring) :
  (isWellFormed s = true -> exists r, encodeURIComponent s = Ok r)
  /\ (isWellFormed s = false -> encodeURIComponent s = Throw URIError).
Proof. apply (encodeURIComponent_isWellFormed_bounded (length s)). lia. Qed.

Lemma hex_digit_safe (d : N) : breaks_attribute (hex_digit d) = false.
Proof.
  unfold breaks_attribute, hex_digit, u_quot, u_amp, u_lt, u_gt.
  destruct (N.ltb_spec d 10);
    repeat (apply orb_false_iff; split); apply N.eqb_neq; lia.
Qed.

Lemma percent_all_safe (cp : N) :
  forallb (fun c => negb (breaks_attribute c)) (percent_all cp) = true.
Proof.
  unfold percent_all. induction (utf8 cp) as [|o l IH]; [reflexivity|].
  cbn [flat_map]. rewrite forallb_app, IH.
  unfold percent. cbn [forallb]. now rewrite !hex_digit_safe.
Qed.

Lemma unreserved_safe (c : N) :
  is_unreserved c = true -> breaks_attribute c = false.
Proof.
  unfold breaks_attribute, u_quot, u_amp, u_lt, u_gt.
  intros H.
  destruct (N.eqb_spec c 34) as [->|_]; [discriminate H|].
  destruct (N.eqb_spec c 38) as [->|_]; [discriminate H|].
  destruct (N.eqb_spec c 60) as [->|_]; [discriminate H|].
  destruct (N.eqb_spec c 62) as [->|_]; [discriminate H|].
  reflexivity.
Qed.

Lemma encodeURIComponent_safe_bounded (n : nat) :
  forall s r, (length s <= n)%nat -> encodeURIComponent s = Ok r ->
              forallb (fun c => negb (breaks_attribute c)) r = true.
Proof.
  induction n as [|n IH]; intros s r Hlen Henc.
  - destruct s; [|simpl in Hlen; lia]. now injection Henc as <-.
  - destruct s as [|c s]; [now injection Henc as <-|].
    cbn [encodeURIComponent] in Henc. cbn [length] in Hlen.
    destruct (is_unreserved c) eqn:Hu.
    + destruct (encodeURIComponent s) as [r'|] eqn:Hs; [|discriminate].
      injection Henc as <-. cbn [forallb].
      rewrite (unreserved_safe c Hu). cbn [negb andb].
      apply (IH s); [lia|exact Hs].
    + destruct (is_low_surrogate c); [discriminate|].
      destruct (is_high_surrogate c).
      * destruct s as [|d s]; [discriminate|].
        destruct (is_low_surrogate d); [|discriminate].
        destruct (encodeURIComponent s) as [r'|] eqn:Hs; [|discriminate].
        injection Henc as <-. rewrite forallb_app, percent_all_safe.
        apply (IH s); [cbn [length] in Hlen; lia|exact Hs].
      * destruct (encodeURIComponent s) as [r'|] eqn:Hs; [|discriminate].
        injection Henc as <-. rewrite forallb_app, percent_all_safe.
        apply (IH s); [lia|exact Hs].
Qed.

End Throws.

(** X4. [renderToolCard] returns a card exactly for the tools that are
    neither [null] nor [undefined], whose slug prints, as a well-formed
    string, whose texts ([icon] or [AI], [name], [pricing_type],
    [description] and [category] or the empty string) and [url] print, and
    whose [use_cases] is falsy or an array with its first three entries
    printing. A value prints, that is [String] returns for it, unless it is
    an object with a [toString] of its own or an array that holds one, at
    any depth. For every other tool [renderToolCard] throws, and what it
    throws is a TypeError or a URIError. *)
Theorem renderToolCard_returns_iff (tool : value) :
  ((exists html, renderToolCard tool = Ok html)
   <-> tool <> Undefined /\ tool <> Null
       /\ prints (prop tool "slug") = true
       /\ isWellFormed (printed (prop tool "slug")) = true
       /\ prints (or_else (prop tool "icon") (Str (lit "AI"))) = true
       /\ prints (prop tool "name") = true
       /\ prints (or_else (prop tool "pricing_type") (Str [])) = true
       /\ prints (or_else (prop tool "description") (Str [])) = true
       /\ prints (or_else (prop tool "category") (Str [])) = true
       /\ (exists l, or_else (prop tool "use_cases") (Arr []) = Arr l
                     /\ forallb prints (firstn 3 l) = true)
       /\ prints (prop tool "url") = true)
  /\ (forall v, prints v = true <-> exists s, String_ v = Ok s)
  /\ (forall v, prints v = false <-> String_ v = Throw TypeError)
  /\ (forall e, renderToolCard tool = Throw e ->
                e = TypeError \/ e = URIError).
Proof.
  destruct (encodeURIComponent_isWellFormed (printed (prop tool "slug")))
    as [Hok Hbad].
  split; [|split; [|split]].
  - rewrite renderToolCard_eq, <- texts_print_true. split.
    + intros [html H].
      assert (H1 : tool <> Undefined) by (intros ->; discriminate H).
      assert (H2 : tool <> Null) by (intros ->; discriminate H).
      split; [exact H1|]. split; [exact H2|].
      destruct (prints (prop tool "slug"));
        [|destruct tool; discriminate H].
      split; [reflexivity|].
      destruct (isWellFormed (printed (prop tool "slug"))) eqn:Hw.
      * split; [reflexivity|].
        destruct (Hok eq_refl) as [r Hr]. rewrite Hr in H.
        destruct (texts_print tool); [reflexivity|].
        destruct tool; discriminate H.
      * rewrite (Hbad eq_refl) in H. destruct tool; discriminate H.
    + intros (H1 & H2 & Hp & Hw & Ht). destruct (Hok Hw) as [r Hr].
      rewrite Hp, Hr, Ht. destruct tool; try contradiction; now eexists.
  - intros v. rewrite String_prints. destruct (prints v); split.
    + intros _. now eexists.
    + reflexivity.
    + discriminate.
    + intros [s0 H]. discriminate H.
  - intros v. rewrite String_prints. destruct (prints v); split;
      try reflexivity; discriminate.
  - intros e H. rewrite renderToolCard_eq in H.
    assert (Hgo :
      tool <> Undefined -> tool <> Null ->
      (if prints (prop tool "slug") then
         match encodeURIComponent (printed (prop tool "slug")) with
         | Throw e => Throw e
         | Ok encoded =>
             if texts_print tool then
               Ok (card (icon_text tool) (lit "/tools/" ++ encoded)
                     (name_text tool) (pricing_text tool)
                     (description_text tool) (category_text tool)
                     (pills_text tool) (visit_text tool))
             else Throw TypeError
         end
       else Throw TypeError) = Throw e ->
      e = TypeError \/ e = URIError).
    { intros _ _ H'.
      destruct (prints (prop tool "slug"));
        [|injection H' as <-; now left].
      destruct (isWellFormed (printed (prop tool "slug"))) eqn:Hw.
      - destruct (Hok eq_refl) as [r Hr]. rewrite Hr in H'.
        destruct (texts_print tool); [discriminate H'|].
        injection H' as <-. now left.
      - rewrite (Hbad eq_refl) in H'. injection H' as <-. now right. }
    destruct tool;
      try (injection H as <-; now left);
      apply Hgo; try discriminate; exact H.
Qed.

(** X5. The slug cannot leave its attribute: what [renderToolCard] puts
    after [/tools/] in the two links holds no double quote, no ampersand,
    no [<] and no [>], whatever the slug is. *)
Theorem renderToolCard_href_safe (tool : value) (html : jsstring) :
  renderToolCard tool = Ok html ->
  exists encoded,
    html = card (icon_text tool) (lit "/tools/" ++ encoded)
             (name_text tool) (pricing_text tool)
             (description_text tool) (category_text tool)
             (pills_text tool) (visit_text tool)
    /\ forallb (fun c => negb (breaks_attribute c)) (lit "/tools/" ++ encoded)
       = true.
Proof.
  intros H.
  destruct (renderToolCard_Ok _ _ H) as (encoded & (_ & Henc & _) & ->).
  exists encoded. split; [reflexivity|].
  rewrite forallb_app. apply andb_true_iff. split; [reflexivity|].
  now apply (encodeURIComponent_safe_bounded
               (length (printed (prop tool "slug")))
               (printed (prop tool "slug"))).
Qed.

(** The card of [hostile_slug_tool]: its slug arrives percent-encoded. *)
Lemma renderToolCard_href_safe_witness :
  exists html encoded,
    renderToolCard hostile_slug_tool = Ok html
    /\ encodeURIComponent (printed (prop hostile_slug_tool "slug"))
       = Ok (lit "%22%3E%3Cscript%3Ealert(1)%3C%2Fscript%3E%26")
    /\ html = card (icon_text hostile_slug_tool) (lit "/tools/" ++ encoded)
                (name_text hostile_slug_tool) (pricing_text hostile_slug_tool)
                (description_text hostile_slug_tool)
                (category_text hostile_slug_tool)
                (pills_text hostile_slug_tool) (visit_text hostile_slug_tool)
    /\ forallb (fun c => negb (breaks_attribute c)) (lit "/tools/" ++ encoded)
       = true.
Proof.
  assert (Hret : exists html, renderToolCard hostile_slug_tool = Ok html)
    by (eexists; vm_compute; reflexivity).
  destruct Hret as [html Hret].
  destruct (renderToolCard_href_safe hostile_slug_tool html Hret)
    as (encoded & Hcard & Hsafe).
  exists html, encoded. split; [exact Hret|].
  split; [vm_compute; reflexivity|]. now split.
Defined.

(** ** What [renderToolCard] and [run] do not look at *)

Section NotLookedAt.

Lemma get_insert_ne (m : gmap jsstring value) (k key : jsstring) (v : value) :
  k <> key -> get (Obj (<[k:=v]> m)) key = get (Obj m) key.
Proof. intros H. cbn [get]. now rewrite lookup_insert_ne. Qed.

Lemma get_insert_eq (m : gmap jsstring value) (k : jsstring) (v : value) :
  get (Obj (<[k:=v]> m)) k = Ok v.
Proof. cbn [get]. now rewrite lookup_insert_eq. Qed.

Lemma prop_insert_ne
  (m : gmap jsstring value) (k : jsstring) (key : string) (v : value) :
  k <> lit key -> prop (Obj (<[k:=v]> m)) key = prop (Obj m) key.
Proof. intros H. unfold prop. now rewrite get_insert_ne. Qed.

Lemma prop_insert_eq (m : gmap jsstring value) (key : string) (v : value) :
  prop (Obj (<[lit key:=v]> m)) key = v.
Proof. unfold prop. now rewrite get_insert_eq. Qed.

End NotLookedAt.

(** X6. [renderToolCard] reads eight properties of a tool and nothing
    else: setting any other property to any value gives the same card, or
    the same exception. *)
Theorem renderToolCard_ignores_other_keys
  (m : gmap jsstring value) (k : jsstring) (v : value) :
  ~ In k tool_keys ->
  renderToolCard (Obj (<[k:=v]> m)) = renderToolCard (Obj m).
Proof.
  intros Hk.
  assert (Hne : forall key, In key tool_keys ->
                  get (Obj (<[k:=v]> m)) key = get (Obj m) key).
  { intros key Hkey. apply get_insert_ne. intros ->. contradiction. }
  unfold renderToolCard.
  rewrite !Hne by (unfold tool_keys; cbn [In]; tauto).
  reflexivity.
Qed.

(** X7. Only the first three use cases matter: two tools that differ in
    their later use cases alone get the same card. *)
Theorem renderToolCard_first_three_use_cases
  (m : gmap jsstring value) (l l' : list value) :
  firstn 3 l = firstn 3 l' ->
  renderToolCard (Obj (<[lit "use_cases":=Arr l]> m))
  = renderToolCard (Obj (<[lit "use_cases":=Arr l']> m)).
Proof.
  intros H. rewrite !renderToolCard_eq.
  unfold texts_print, icon_text, name_text, pricing_text, description_text,
    category_text, pills_text, use_cases_shown, visit_text.
  rewrite !prop_insert_eq.
  rewrite !(prop_insert_ne m (lit "use_cases")) by (vm_compute; discriminate).
  cbn [or_else truthy elements]. now rewrite H.
Qed.

(** X8. Only the first five tools of a response matter: two responses
    whose [tools] arrays agree on their first five entries leave the page
    in the same state, whatever the later entries are. *)
Theorem settle_first_five_tools
  (c : nat) (data data' : value) (l l' : list value) (s : state) :
  get data (lit "tools") = Ok (Arr l) ->
  get data' (lit "tools") = Ok (Arr l') ->
  firstn 5 l = firstn 5 l' ->
  settle c (Ok data) s = settle c (Ok data') s.
Proof.
  intros Hl Hl' H. unfold settle, try_body. cbn [bind].
  rewrite Hl, Hl'. cbn [bind or_else truthy no_length slice_map].
  rewrite H.
  destruct l as [|t l], l' as [|t' l']; try reflexivity; discriminate H.
Qed.

(** A [score] on a tool changes nothing. *)
Lemma renderToolCard_ignores_other_keys_witness :
  renderToolCard (Obj (<[lit "score":=Num (lit "7")]> bare_props))
  = renderToolCard (Obj bare_props).
Proof.
  apply renderToolCard_ignores_other_keys.
  vm_compute. intros H.
  repeat (destruct H as [H|H]; [discriminate H|]). exact H.
Defined.

(** Five use cases and the first three of them give the same card. *)
Lemma renderToolCard_first_three_use_cases_witness :
  renderToolCard (Obj (<[lit "use_cases":=Arr five_use_cases]> bare_props))
  = renderToolCard
      (Obj (<[lit "use_cases":=Arr (firstn 3 five_use_cases)]> bare_props)).
Proof.
  apply renderToolCard_first_three_use_cases. reflexivity.
Defined.

(** Seven tools, and the first five of them followed by a [null]. *)
Lemma settle_first_five_tools_witness :
  settle 0 (Ok (response seven_tools)) (init true [] [])
  = settle 0 (Ok (response (firstn 5 seven_tools ++ [Null])))
      (init true [] []).
Proof.
  apply (settle_first_five_tools 0 _ _ seven_tools
           (firstn 5 seven_tools ++ [Null])); reflexivity.
Defined.

(** ** The panel and the grid *)

Section PanelAndGrid.

Lemma card_not_empty (icon href name pricing description category pills visit
  : jsstring) :
  card icon href name pricing description category pills visit <> [].
Proof. unfold card. intros H. apply (f_equal (@length N)) in H.
  rewrite length_app in H. vm_compute in H. discriminate H.
Qed.

Lemma renderToolCard_not_empty (tool : value) (html : jsstring) :
  renderToolCard tool = Ok html -> html <> [].
Proof.
  intros H. destruct (renderToolCard_Ok _ _ H) as (encoded & _ & ->).
  apply card_not_empty.
Qed.

Lemma mapM_cards_not_empty (l : list value) (cards : list jsstring) :
  l <> [] -> mapM renderToolCard l = Ok cards -> join [] cards <> [].
Proof.
  intros Hl H. apply mapM_Forall2 in H.
  destruct H as [|t h l' cards' Hh _]; [contradiction|].
  rewrite join_nil_cons. intros Heq. apply app_eq_nil in Heq.
  destruct Heq as [Heq _]. now apply (renderToolCard_not_empty t h).
Qed.

(** What [run] does to the page when it resumes: it empties the grid and
    hides the panel, or it fills the grid with markup that is not empty and
    shows the panel. *)
Lemma settle_shows_cards (c : nat) (r : result value) (s : state) :
  settle c r s = hide_and_clear s
  \/ exists html, html <> [] /\ settle c r s = show_cards c html s.
Proof.
  unfold settle. destruct r as [data|e]; cbn [bind]; [|now left].
  unfold try_body.
  destruct (get data (lit "tools")) as [tools|e]; cbn [bind]; [|now left].
  destruct (no_length (or_else tools (Arr []))) as [[|]|e] eqn:Hn; cbn [bind];
    [now left| |now left].
  destruct (or_else tools (Arr [])) as [| | | | |l|]; try (now left).
  cbn [slice_map]. cbn [no_length] in Hn. injection Hn as Hn.
  destruct (mapM renderToolCard (firstn 5 l)) as [cards|e] eqn:Hc;
    cbn [bind]; [|now left].
  right. exists (join [] cards). split; [|reflexivity].
  apply (mapM_cards_not_empty (firstn 5 l)); [|exact Hc].
  destruct l; [discriminate Hn|discriminate].
Qed.

Lemma panel_matches_grid_settle (c : nat) (r : result value) (s : state) :
  panel_matches_grid (settle c r s).
Proof.
  destruct (settle_shows_cards c r s) as [->|(html & Hne & ->)].
  - left. now split.
  - right. now split.
Qed.

Lemma panel_matches_grid_run (s : state) :
  panel_matches_grid s -> panel_matches_grid (run s).
Proof.
  intros H. unfold run.
  destruct (Nat.ltb (length (trim (input_value s))) 3); [left; now split|].
  cbv [new_AbortController]. rewrite fold_abort.
  destruct (lastController s) as [c|];
    [destruct (List.filter (fun r => is_controller c r) (inflight s))|];
    try exact H; left; now split.
Qed.

Lemma panel_matches_grid_step (e : event) (s : state) :
  panel_matches_grid s -> panel_matches_grid (step e s).
Proof.
  intros H. destruct e as [text|ms|c status|c json|c]; cbn [step].
  - exact H.
  - unfold elapse.
    generalize (List.filter (fun p => Nat.leb (snd p) (clock s + ms)) (timers s)).
    assert (Ht : panel_matches_grid
                   (tick ms (List.filter
                               (fun p => negb (Nat.leb (snd p) (clock s + ms)))
                               (timers s)) s)) by exact H.
    revert Ht.
    generalize (tick ms (List.filter
                           (fun p => negb (Nat.leb (snd p) (clock s + ms)))
                           (timers s)) s).
    intros s0 Hs0 due. revert s0 Hs0.
    induction due as [|p due IH]; intros s0 Hs0; [exact Hs0|].
    cbn [fold_left]. apply IH. now apply panel_matches_grid_run.
  - now destruct (waiting c AwaitHeaders s).
  - destruct (waiting c AwaitBody s); [apply panel_matches_grid_settle|exact H].
  - destruct (existsb (is_controller c) (inflight s));
      [apply panel_matches_grid_settle|exact H].
Qed.

End PanelAndGrid.

(** X9. The panel is shown exactly when the grid holds markup: if this is
    so at some point (as when the page starts hidden and empty), it stays
    so whatever happens; the script never shows an empty grid and never
    hides a filled one. *)
Theorem panel_shown_iff_grid_filled (evs : list event) (s : state) :
  panel_matches_grid s -> panel_matches_grid (run_events evs s).
Proof.
  revert s. induction evs as [|e evs IH]; intros s H; [exact H|].
  cbn [run_events fold_left]. apply IH. now apply panel_matches_grid_step.
Qed.

(** After the responses of [late_reply] the panel is shown, with cards. *)
Lemma panel_shown_iff_grid_filled_witness :
  recs_hidden (run_events late_reply (run one_pending)) = false
  /\ grid (run_events late_reply (run one_pending)) <> [].
Proof.
  assert (H0 : panel_matches_grid (run one_pending))
    by (left; split; reflexivity).
  destruct (panel_shown_iff_grid_filled late_reply (run one_pending) H0)
    as [[Hh _]|H]; [vm_compute in Hh; discriminate Hh|exact H].
Defined.

(** ** What is sent *)

Section Sent.

Lemma trimStart_clean (s : jsstring) :
  match trimStart s with
  | [] => True
  | c :: _ => is_trimmed_unit c = false
  end.
Proof.
  induction s as [|c s IH]; [exact I|].
  cbn [trimStart]. now destruct (is_trimmed_unit c) eqn:Hc.
Qed.

Lemma trimStart_id (s : jsstring) :
  match s with
  | [] => True
  | c :: _ => is_trimmed_unit c = false
  end -> trimStart s = s.
Proof. destruct s as [|c s]; [reflexivity|]. cbn [trimStart]. now intros ->. Qed.

Lemma trimStart_suffix (s : jsstring) : exists pre, s = pre ++ trimStart s.
Proof.
  induction s as [|c s [pre IH]]; [now exists []|].
  cbn [trimStart]. destruct (is_trimmed_unit c); [|now exists []].
  exists (c :: pre). cbn [app]. now f_equal.
Qed.

(** [trim] strips all there is to strip. *)
Lemma trim_trim (s : jsstring) : trim (trim s) = trim s.
Proof.
  unfold trim.
  pose proof (trimStart_clean s) as Hu.
  remember (trimStart s) as u eqn:Eu. clear Eu.
  pose proof (trimStart_clean (rev u)) as Hw.
  destruct (trimStart_suffix (rev u)) as [pre Hpre].
  remember (trimStart (rev u)) as w eqn:Ew. clear Ew.
  assert (Hclean : trimStart (rev w) = rev w).
  { apply trimStart_id. destruct (rev w) as [|x t] eqn:Er; [exact I|].
    apply (f_equal (@rev N)) in Hpre.
    rewrite rev_involutive, rev_app_distr, Er in Hpre.
    rewrite Hpre in Hu. exact Hu. }
  rewrite Hclean, rev_involutive. f_equal. now apply trimStart_id.
Qed.

Lemma elapse_cases (ms : nat) (s : state) :
  wf s ->
  elapse ms s = tick ms (timers s) s
  \/ elapse ms s = run (tick ms [] s) /\ length (timers s) = 1%nat.
Proof.
  intros H. pose proof (wf_one_timer s H) as Hone.
  destruct (timers s) as [|[t due] l] eqn:Ht.
  - left. rewrite elapse_eq, Ht. reflexivity.
  - destruct l; [|cbn in Hone; lia].
    destruct (Nat.le_gt_cases due (clock s + ms)) as [Hdue|Hdue].
    + right. split; [|reflexivity]. now apply (elapse_fire ms t due).
    + left. now apply (elapse_idle ms t due).
Qed.

(** What an event does to the call log and the controllers: nothing, or
    one request goes out, as [started] has it, for the text in the field. *)
Lemma step_request (e : event) (s : state) :
  wf s ->
  (calls (step e s) = calls s
   /\ lastController (step e s) = lastController s
   /\ next_controller (step e s) = next_controller s)
  \/ ((3 <= length (trim (input_value s)))%nat
      /\ calls (step e s)
         = CallFetch (next_controller s) (trim (input_value s))
           :: match lastController s with
              | Some c => [CallAbort c]
              | None => []
              end ++ calls s
      /\ lastController (step e s) = Some (next_controller s)
      /\ next_controller (step e s) = S (next_controller s)
      /\ exists ms, e = Elapse ms).
Proof.
  intros H. destruct e as [text|ms|c status|c json|c]; cbn [step].
  - left. now repeat split.
  - destruct (elapse_cases ms s H) as [->|[-> _]]; [left; now repeat split|].
    pose proof (wf_tick_nil ms s H) as H'.
    destruct (Nat.lt_ge_cases (length (trim (input_value s))) 3) as [Hs|Hl].
    + left. rewrite run_short by exact Hs. now repeat split.
    + right. split; [exact Hl|]. rewrite (run_long _ H' Hl).
      cbn [tick inflight]. destruct (inflight s); repeat split; now exists ms.
  - left. now destruct (waiting c AwaitHeaders s).
  - left. destruct (waiting c AwaitBody s); [|now repeat split].
    destruct (settle_cases c (res_json json) (without c s)) as [->|[html ->]];
      now repeat split.
  - left. destruct (existsb (is_controller c) (inflight s)); [|now repeat split].
    rewrite settle_Throw. now repeat split.
Qed.

Lemma fetched_cons (c : nat) (task : jsstring) (last : option nat)
  (l : list call) :
  flat_map (fun k => match k with
                     | CallFetch c0 task0 => [(c0, task0)]
                     | CallAbort _ => []
                     end)
    (CallFetch c task
     :: match last with
        | Some c0 => [CallAbort c0]
        | None => []
        end ++ l)
  = (c, task)
    :: flat_map (fun k => match k with
                          | CallFetch c0 task0 => [(c0, task0)]
                          | CallAbort _ => []
                          end) l.
Proof. now destruct last. Qed.

End Sent.

(** X10. Every task the page has ever sent is trimmed (trimming it again
    changes nothing) and has three code units or more. *)
Theorem fetched_tasks_sendable (s : state) :
  reachable s -> Forall (fun r => sendable (snd r)) (fetched s).
Proof.
  induction 1 as [hidden html value|e s Hreach IH]; [constructor|].
  destruct (step_request e s (wf_reachable s Hreach))
    as [(Hc & _)|(Hlen & Hc & _)]; unfold fetched in *; rewrite Hc;
    [exact IH|].
  rewrite fetched_cons. constructor; [|exact IH].
  split; [exact Hlen|apply trim_trim].
Qed.

(** After the burst [abc], [abcd], [ abcde ] one task was sent: [abcde]. *)
Lemma fetched_tasks_sendable_witness :
  sendable (lit "abcde").
Proof.
  pose proof (fetched_tasks_sendable
                (run_events
                   [Input (lit "abc"); Elapse 200; Input (lit "abcd");
                    Elapse 449; Input (lit " abcde "); Elapse 450]
                   (init true [] []))
                (reachable_run_events _ _ (reachable_init true [] []))) as H.
  vm_compute fetched in H. inversion H as [|r l Hr _]. exact Hr.
Defined.

(** X11. The call log of the page has the shape of [chain]: the first call
    is a fetch, and from then on every fetch comes right after the abort of
    the controller of the fetch before it, with a controller that is new.
    So nothing is aborted that was not fetched, nothing is aborted twice,
    and no abort goes without a new request. *)
Theorem calls_chain (s : state) :
  reachable s ->
  chain (calls s)
  /\ match calls s with
     | [] => lastController s = None
     | CallFetch c _ :: _ => lastController s = Some c
     | CallAbort _ :: _ => False
     end.
Proof.
  induction 1 as [hidden html value|e s Hreach [IH1 IH2]];
    [split; [constructor|reflexivity]|].
  pose proof (wf_reachable s Hreach) as H.
  destruct (step_request e s H) as [(Hc & Hl & _)|(_ & Hc & Hl & _)];
    rewrite Hc, Hl; [now split|].
  destruct (calls s) as [|[c|c task] rest] eqn:Hcalls; [| contradiction |].
  - rewrite IH2. split; [constructor|reflexivity].
  - rewrite IH2. cbn [app]. split; [|reflexivity].
    constructor; [|exact IH1]. now apply (wf_fresh s H).
Qed.

(** The log after [abc] and then [abcd] were searched. *)
Lemma calls_chain_witness :
  chain [CallFetch 1 (lit "abcd"); CallAbort 0; CallFetch 0 (lit "abc")].
Proof.
  assert (Hreach : reachable (step (Elapse 450) one_pending))
    by (apply reachable_step, reachable_run_events, reachable_init).
  destruct (calls_chain _ Hreach) as [H _]. exact H.
Defined.

(** ** Requests and inputs, timers and the clock *)

Section Counting.

Lemma run_timers_clock (s : state) :
  timers (run s) = timers s /\ clock (run s) = clock s
  /\ debounce (run s) = debounce s.
Proof.
  unfold run.
  destruct (Nat.ltb (length (trim (input_value s))) 3); [now repeat split|].
  cbv [new_AbortController]. rewrite fold_abort.
  now destruct (lastController s) as [c|];
    [destruct (List.filter (fun r => is_controller c r) (inflight s))|].
Qed.

(** An event adds at most one to the fetches and the pending timers taken
    together, and only an input does. *)
Lemma step_measure (e : event) (s : state) :
  wf s ->
  (length (fetched (step e s)) + length (timers (step e s))
   <= length (fetched s) + length (timers s) + inputs [e])%nat.
Proof.
  intros H. destruct e as [text|ms|c status|c json|c]; cbn [inputs].
  - destruct (wf_on_input text s H) as [_ Ht]. cbn [step]. rewrite Ht.
    unfold fetched. cbn. lia.
  - cbn [step]. destruct (elapse_cases ms s H) as [->|[-> Hone]].
    + unfold fetched. cbn. lia.
    + destruct (run_timers_clock (tick ms [] s)) as (-> & _).
      rewrite fetched_run by now apply wf_tick_nil.
      rewrite length_app. cbn [tick timers length input_value].
      change (fetched (tick ms [] s)) with (fetched s).
      destruct (Nat.leb 3 (length (trim (input_value s)))); cbn [length]; lia.
  - destruct (response_frame (Headers c status) s I) as (-> & _ & _ & Hc & _).
    unfold fetched. rewrite Hc. lia.
  - destruct (response_frame (Body c json) s I) as (-> & _ & _ & Hc & _).
    unfold fetched. rewrite Hc. lia.
  - destruct (response_frame (Failed c) s I) as (-> & _ & _ & Hc & _).
    unfold fetched. rewrite Hc. lia.
Qed.

Lemma run_events_measure (evs : list event) :
  forall s, wf s ->
    (length (fetched (run_events evs s)) + length (timers (run_events evs s))
     <= length (fetched s) + length (timers s) + inputs evs)%nat.
Proof.
  induction evs as [|e evs IH]; intros s H; [cbn; lia|].
  cbn [run_events fold_left].
  change (fold_left (fun s' e0 => step e0 s') evs (step e s))
    with (run_events evs (step e s)).
  pose proof (IH (step e s) (wf_step e s H)) as H1.
  pose proof (step_measure e s H) as H2.
  assert (inputs (e :: evs) = inputs [e] + inputs evs)%nat
    by (destruct e; reflexivity).
  lia.
Qed.

(** In a reachable state a pending timer is due within 450ms. *)
Lemma due_soon (s : state) :
  reachable s ->
  forall p, In p (timers s) -> (snd p <= clock s + 450)%nat.
Proof.
  induction 1 as [hidden html value|e s Hreach IH]; [intros p []|].
  pose proof (wf_reachable s Hreach) as H.
  destruct e as [text|ms|c status|c json|c].
  - destruct (wf_on_input text s H) as [_ Ht]. cbn [step]. rewrite Ht.
    intros p [<-|[]]. cbn. lia.
  - cbn [step]. destruct (elapse_cases ms s H) as [->|[-> _]].
    + cbn [tick timers clock]. intros p Hp. apply IH in Hp. lia.
    + destruct (run_timers_clock (tick ms [] s)) as (-> & _). intros p [].
  - destruct (response_frame (Headers c status) s I) as (-> & -> & _). exact IH.
  - destruct (response_frame (Body c json) s I) as (-> & -> & _). exact IH.
  - destruct (response_frame (Failed c) s I) as (-> & -> & _). exact IH.
Qed.

End Counting.

(** X12. The page sends no more requests than the user made edits: from
    the start, the fetches never outnumber the input events, whatever the
    timing and whatever the responses. *)
Theorem fetches_at_most_inputs
  (evs : list event) (hidden : bool) (html value : jsstring) :
  (length (fetched (run_events evs (init hidden html value))) <= inputs evs)%nat.
Proof.
  pose proof (run_events_measure evs (init hidden html value)
                (wf_init hidden html value)) as H.
  change (fetched (init hidden html value)) with (@nil (nat * jsstring)) in H.
  change (timers (init hidden html value)) with (@nil (nat * nat)) in H.
  cbn [length] in H. lia.
Qed.

(** X13. When [run] starts a request and none is pending (the previous one
    was answered, or there was none), the panel and the grid stay as they
    are, also when the headers of the response arrive: the cards of the
    previous search remain on the page until the new response's body
    comes. *)
Theorem run_keeps_answered_cards (s : state) :
  reachable s ->
  (3 <= length (trim (input_value s)))%nat ->
  inflight s = [] ->
  recs_hidden (run s) = recs_hidden s
  /\ grid (run s) = grid s
  /\ forall status,
       recs_hidden (step (Headers (next_controller s) status) (run s))
       = recs_hidden s
       /\ grid (step (Headers (next_controller s) status) (run s)) = grid s.
Proof.
  intros Hreach Hlen Hnone.
  rewrite (run_long s (wf_reachable s Hreach) Hlen), Hnone.
  split; [reflexivity|]. split; [reflexivity|].
  intros status. cbn [step].
  now destruct (waiting (next_controller s) AwaitHeaders (started s)).
Qed.

(** X14. In every reachable state at most one timer is pending; it is the
    one [debounce] holds, it is not yet due, and it is due within 450ms. *)
Theorem one_timer_due_within_450 (s : state) :
  reachable s ->
  (length (timers s) <= 1)%nat
  /\ forall t due,
       In (t, due) (timers s) ->
       debounce s = Some t /\ (clock s < due)%nat /\ (due <= clock s + 450)%nat.
Proof.
  intros Hreach. pose proof (wf_reachable s Hreach) as H.
  split; [apply (wf_one_timer s H)|].
  intros t due Hin. split; [apply (wf_timers s H _ Hin)|].
  split; [apply (wf_pending s H _ Hin)|apply (due_soon s Hreach _ Hin)].
Qed.

(** On [answered] the new search leaves the card of [bare_tool] in place. *)
Lemma run_keeps_answered_cards_witness :
  recs_hidden (run answered) = false
  /\ grid (run answered)
     = card (lit "AI") (lit "/tools/x") (lit "X") [] [] [] []
         (lit "https://example.com/x").
Proof.
  assert (Hreach : reachable answered)
    by (apply reachable_run_events, reachable_init).
  destruct (run_keeps_answered_cards answered Hreach) as (Hh & Hg & _);
    [vm_compute; lia|vm_compute; reflexivity|].
  rewrite Hh, Hg. split; vm_compute; reflexivity.
Defined.

(** On [answered] the timer of the last input is due in 250ms. *)
Lemma one_timer_due_within_450_witness :
  timers answered = [(1%nat, 1000%nat)] /\ clock answered = 750%nat
  /\ debounce answered = Some 1%nat.
Proof.
  assert (Hreach : reachable answered)
    by (apply reachable_run_events, reachable_init).
  destruct (one_timer_due_within_450 answered Hreach) as [_ H].
  destruct (H 1%nat 1000%nat) as (Hd & _); [vm_compute; now left|].
  split; [vm_compute; reflexivity|]. split; [vm_compute; reflexivity|exact Hd].
Defined.
